(** * evm_trace.parity: decoding Parity-style traces and assembling the call tree

    A shallow embedding of [src/evm_trace/parity.py].  Exceptions are values of
    an error monad, the keyword dictionary handed to [CallTreeNode] is a finite
    map on field names, the validation done by [CallTreeNode] is a parameter,
    and the recursion of the assembler is driven by a depth budget whose
    size, once sufficient, does not matter. *)

From Stdlib Require Import ZArith Ascii String List Bool Lia.
From stdpp Require Import base option list strings gmap fin_maps.

Set Warnings "-register-all".

Local Open Scope string_scope.
Local Open Scope list_scope.
Local Open Scope Z_scope.

(** ** Exceptions *)

(** The exceptions that occur.  [ValidationError] is what the validation of a
    model raises besides the exceptions of its validators.  [RecursionBudget]
    is not a Python exception: it marks an exhausted depth budget of the
    embedding, and the assembler's own code never reaches it
    ([calltree_budget_enough]). *)
Inductive exn : Set :=
| IndexError
| KeyError
| AttributeError
| TypeError
| ValueError
| ValidationError
| RecursionBudget.

Inductive outcome (A : Type) : Type :=
| Ok (a : A)
| Raise (e : exn).

Arguments Ok {A} a.
Arguments Raise {A} e.

Global Instance outcome_bind : MBind outcome := fun A B k r =>
  match r with
  | Ok a => k a
  | Raise e => Raise e
  end.

Global Instance outcome_ret : MRet outcome := fun A a => Ok a.

Global Instance outcome_fmap : FMap outcome := fun A B f r =>
  match r with
  | Ok a => Ok (f a)
  | Raise e => Raise e
  end.

(** A list comprehension [[f x for x in l]] is [mapM f l]: elements are
    evaluated left to right and the first exception aborts the whole
    comprehension. *)

(** ** The operation-kind enumeration *)

(** Modelled from the spec: [evm_trace.enums.CallType] is imported by
    [parity.py] but its declaration is not part of the sources at hand.  The six
    members that [parity.py] names are constructors; their values are the
    canonical uppercase tags.  Any further member of the enumeration is
    [OTHER tag], and which tags those are is a parameter of the development
    ([extra_kinds] below). *)
Inductive CallType : Set :=
| CALL
| DELEGATECALL
| STATICCALL
| CALLCODE
| CREATE
| SELFDESTRUCT
| OTHER (tag : string).

Global Instance CallType_eq_dec : EqDecision CallType.
Proof. solve_decision. Defined.

(** ** Python values *)

(** The values that reach the validators as raw input and that are stored in
    the keyword dictionary of a node: [None], booleans, integers, text, byte
    strings ([bytes] and [bytearray]), members of [CallType], lists,
    dictionaries with text keys, and [CallTreeNode] objects.  Floating-point
    numbers and objects of other classes are left out.  Text is a [string]
    over the ASCII range; CPython's treatment of code points above 127
    (Unicode digits, Unicode white space, multi-letter uppercasing) is outside
    the embedding.  A byte string is a [string] of its bytes. *)
Inductive pyval : Type :=
| PNone
| PBool (b : bool)
| PInt (z : Z)
| PStr (s : string)
| PBytes (b : string)
| PByteArray (b : string)
| PEnum (k : CallType)
| PList (l : list pyval)
| PDict (m : gmap string pyval)
| PNode (fields : gmap string pyval).

(** Modelled from the spec: [evm_trace.base.CallTreeNode] is not part of the
    sources at hand.  A node object is represented by the dictionary of its
    fields.  How [CallTreeNode.model_validate] turns the keyword dictionary
    that [get_calltree_from_parity_trace] hands to it into a node, and when it
    raises instead, is a parameter of the assembler ([model_validate]
    below). *)
Abbreviation node := (gmap string pyval).

(** ** Numeric normalizer *)

(** [Py_ISSPACE]: tab, line feed, vertical tab, form feed, carriage return and
    space. *)
Definition is_space (c : ascii) : bool :=
  let n := N_of_ascii c in
  ((9 <=? n) && (n <=? 13))%N || (n =? 32)%N.

(** [_PyLong_DigitValue] restricted to base 16: the value of a hexadecimal
    digit, in either letter case. *)
Definition hex_digit (c : ascii) : option Z :=
  let n := Z.of_N (N_of_ascii c) in
  if (48 <=? n) && (n <=? 57) then Some (n - 48)
  else if (97 <=? n) && (n <=? 102) then Some (n - 87)
  else if (65 <=? n) && (n <=? 70) then Some (n - 55)
  else None.

Fixpoint skip_spaces (s : string) : string :=
  match s with
  | String c r => if is_space c then skip_spaces r else s
  | EmptyString => s
  end.

(** The digit loop of [PyLong_FromString]: digits are accumulated, a single
    underscore may separate two digits, a doubled or trailing underscore is a
    syntax error.  Returns the value, the number of digits read and the
    unread rest. *)
Fixpoint scan_digits (prev_underscore : bool) (acc : Z) (digits : nat) (s : string)
  : option (Z * nat * string) :=
  match s with
  | String c r =>
      if Ascii.eqb c "_" then
        if prev_underscore then None else scan_digits true acc digits r
      else
        match hex_digit c with
        | Some d => scan_digits false (16 * acc + d) (S digits) r
        | None => if prev_underscore then None else Some (acc, digits, s)
        end
  | EmptyString => if prev_underscore then None else Some (acc, digits, s)
  end.

Definition strip_sign (s : string) : bool * string :=
  match s with
  | String "+" r => (false, r)
  | String "-" r => (true, r)
  | _ => (false, s)
  end.

(** After the sign an optional [0x] or [0X] marker is dropped, and one
    underscore directly after the marker. *)
Definition strip_marker (s : string) : string :=
  match s with
  | String "0" (String c r) =>
      if Ascii.eqb c "x" || Ascii.eqb c "X" then
        match r with
        | String "_" r' => r'
        | _ => r
        end
      else s
  | _ => s
  end.

(** The digits of the numeral, once white space, sign and marker are passed:
    they must not start with an underscore, there must be at least one digit,
    and only white space may follow. *)
Definition parse_digits (negative : bool) (s2 : string) : outcome Z :=
  match s2 with
  | String "_" _ => Raise ValueError
  | _ =>
      match scan_digits false 0 0 s2 with
      | None => Raise ValueError
      | Some (n, digits, rest) =>
          match digits with
          | O => Raise ValueError
          | S _ =>
              match skip_spaces rest with
              | EmptyString => Ok (if negative then - n else n)
              | String _ _ => Raise ValueError
              end
          end
      end
  end.

(** [int(s, 16)] for text [s]: optional white space, optional sign, optional
    marker, digits, optional white space; anything else is a [ValueError]. *)
Definition int_of_text16 (s : string) : outcome Z :=
  let '(negative, s1) := strip_sign (skip_spaces s) in
  parse_digits negative (strip_marker s1).

(** The characters of a text or of a byte string: the values that
    [int(v, 16)] parses and that have the method [upper]. *)
Definition text_of (v : pyval) : option string :=
  match v with
  | PStr s | PBytes s | PByteArray s => Some s
  | _ => None
  end.

(** [int(v, 16)]: an explicit base needs text or a byte string. *)
Definition int_base16 (v : pyval) : outcome Z :=
  match text_of v with
  | Some s => int_of_text16 s
  | None => Raise TypeError
  end.

(** [_PyLong_DigitValue] restricted to base 10. *)
Definition dec_digit (c : ascii) : option Z :=
  let n := Z.of_N (N_of_ascii c) in
  if (48 <=? n) && (n <=? 57) then Some (n - 48) else None.

(** The digit loop in base 10. *)
Fixpoint scan_decimal (prev_underscore : bool) (acc : Z) (digits : nat) (s : string)
  : option (Z * nat * string) :=
  match s with
  | String c r =>
      if Ascii.eqb c "_" then
        if prev_underscore then None else scan_decimal true acc digits r
      else
        match dec_digit c with
        | Some d => scan_decimal false (10 * acc + d) (S digits) r
        | None => if prev_underscore then None else Some (acc, digits, s)
        end
  | EmptyString => if prev_underscore then None else Some (acc, digits, s)
  end.

(** [sys.int_info.default_max_str_digits]: the interpreter's default limit on
    the number of digits of a numeral in a base that is no power of two. *)
Definition int_max_str_digits : nat := 4300.

(** The digits of a decimal numeral: as in base 16, and a numeral of more
    digits than the limit is refused. *)
Definition parse_decimal (negative : bool) (s1 : string) : outcome Z :=
  match s1 with
  | String "_" _ => Raise ValueError
  | _ =>
      match scan_decimal false 0 0 s1 with
      | None => Raise ValueError
      | Some (n, digits, rest) =>
          match digits with
          | O => Raise ValueError
          | S _ =>
              if (int_max_str_digits <? digits)%nat then Raise ValueError
              else
                match skip_spaces rest with
                | EmptyString => Ok (if negative then - n else n)
                | String _ _ => Raise ValueError
                end
          end
      end
  end.

(** [int(s)] for text or a byte string [s]: base 10 has no marker. *)
Definition int_of_text10 (s : string) : outcome Z :=
  let '(negative, s1) := strip_sign (skip_spaces s) in
  parse_decimal negative s1.

(** [int(v)]: integers and booleans as they are, text and byte strings read in
    base 10. *)
Definition int_native (v : pyval) : outcome Z :=
  match v with
  | PInt z => Ok z
  | PBool b => Ok (if b then 1 else 0)
  | PStr s | PBytes s | PByteArray s => int_of_text10 s
  | _ => Raise TypeError
  end.

Definition isinstance_str (v : pyval) : bool :=
  match v with
  | PStr _ => true
  | _ => false
  end.



(** ** Decoded payloads *)

Module CallAction.
Record t : Type := mk {
  gas : Z;
  input : option string;
  receiver : option string;
  sender : string;
  value : Z;
  call_type : string
}.

(** [@field_validator("value", "gas", mode="before")] *)
Definition convert_integer (v : pyval) : outcome Z := int_base16 v.
End CallAction.

Module CreateAction.
Record t : Type := mk {
  gas : Z;
  init : string;
  value : Z
}.

(** [@field_validator("value", "gas", mode="before")] *)
Definition convert_integer (v : pyval) : outcome Z := int_base16 v.
End CreateAction.

Module SelfDestructAction.
Record t : Type := mk {
  address : string;
  balance : Z
}.

(** [@field_validator("balance", mode="before")] *)
Definition convert_integer (v : pyval) : outcome Z :=
  if isinstance_str v then int_base16 v else int_native v.
End SelfDestructAction.

Module ActionResult.
(** [@field_validator("gas_used", mode="before")], inherited by both result
    classes. *)
Definition convert_integer (v : pyval) : outcome Z :=
  if isinstance_str v then int_base16 v else int_native v.
End ActionResult.

Module CallResult.
Record t : Type := mk {
  gas_used : Z;
  output : string
}.
End CallResult.

Module CreateResult.
Record t : Type := mk {
  gas_used : Z;
  address : string;
  code : string
}.
End CreateResult.

(** [Union[CreateAction, CallAction, SelfDestructAction]] *)
Inductive ParityTraceAction : Type :=
| ActCreate (a : CreateAction.t)
| ActCall (a : CallAction.t)
| ActSelfDestruct (a : SelfDestructAction.t).

(** [Union[CallResult, CreateResult]] *)
Inductive ParityTraceResult : Type :=
| ResCall (r : CallResult.t)
| ResCreate (r : CreateResult.t).

(** Attribute access on an action or a result.  [cast] does nothing at run
    time, so reading an attribute that the object's class does not declare
    raises [AttributeError]. *)
Module Attr.
Definition value (a : ParityTraceAction) : outcome Z :=
  match a with
  | ActCreate c => Ok (CreateAction.value c)
  | ActCall c => Ok (CallAction.value c)
  | ActSelfDestruct _ => Raise AttributeError
  end.

Definition gas (a : ParityTraceAction) : outcome Z :=
  match a with
  | ActCreate c => Ok (CreateAction.gas c)
  | ActCall c => Ok (CallAction.gas c)
  | ActSelfDestruct _ => Raise AttributeError
  end.

Definition init (a : ParityTraceAction) : outcome string :=
  match a with
  | ActCreate c => Ok (CreateAction.init c)
  | _ => Raise AttributeError
  end.

Definition receiver (a : ParityTraceAction) : outcome (option string) :=
  match a with
  | ActCall c => Ok (CallAction.receiver c)
  | _ => Raise AttributeError
  end.

Definition input (a : ParityTraceAction) : outcome (option string) :=
  match a with
  | ActCall c => Ok (CallAction.input c)
  | _ => Raise AttributeError
  end.

Definition address (a : ParityTraceAction) : outcome string :=
  match a with
  | ActSelfDestruct d => Ok (SelfDestructAction.address d)
  | _ => Raise AttributeError
  end.

Definition gas_used (r : ParityTraceResult) : Z :=
  match r with
  | ResCall c => CallResult.gas_used c
  | ResCreate c => CreateResult.gas_used c
  end.

Definition output (r : ParityTraceResult) : outcome string :=
  match r with
  | ResCall c => Ok (CallResult.output c)
  | ResCreate _ => Raise AttributeError
  end.

Definition result_address (r : ParityTraceResult) : outcome string :=
  match r with
  | ResCreate c => Ok (CreateResult.address c)
  | ResCall _ => Raise AttributeError
  end.
End Attr.

(** ** Kind normalization *)

Definition upper_char (c : ascii) : ascii :=
  let n := N_of_ascii c in
  if ((97 <=? n) && (n <=? 122))%N then ascii_of_N (n - 32) else c.

(** [str.upper] on ASCII text. *)
Fixpoint upper (s : string) : string :=
  match s with
  | String c r => String (upper_char c) (upper r)
  | EmptyString => EmptyString
  end.

(** [value.upper()]: text and byte strings have the method; on a byte string
    it touches the ASCII letters only. *)
Definition py_upper (v : pyval) : outcome pyval :=
  match v with
  | PStr s => Ok (PStr (upper s))
  | PBytes b => Ok (PBytes (upper b))
  | PByteArray b => Ok (PByteArray (upper b))
  | _ => Raise AttributeError
  end.

(** [value == t] for a text literal [t]: a byte string never equals text. *)
Definition equals_text (v : pyval) (t : string) : bool :=
  match v with
  | PStr s => String.eqb s t
  | _ => false
  end.

Section Enumeration.
(** The value tags of the members of [CallType] besides the six that
    [parity.py] names. *)
Variable extra_kinds : list string.

(** [CallType(value)]: the member whose value is [value], [ValueError] when
    there is none. *)
Definition CallType_of_value (value : string) : outcome CallType :=
  if String.eqb value "CALL" then Ok CALL
  else if String.eqb value "DELEGATECALL" then Ok DELEGATECALL
  else if String.eqb value "STATICCALL" then Ok STATICCALL
  else if String.eqb value "CALLCODE" then Ok CALLCODE
  else if String.eqb value "CREATE" then Ok CREATE
  else if String.eqb value "SELFDESTRUCT" then Ok SELFDESTRUCT
  else if bool_decide (value ∈ extra_kinds) then Ok (OTHER value)
  else Raise ValueError.

(** [CallType(value)] for any value: the values of the members are text, so
    only text finds a member by value; a member is returned as it is. *)
Definition CallType_call (value : pyval) : outcome CallType :=
  match value with
  | PStr s => CallType_of_value s
  | PEnum k => Ok k
  | _ => Raise ValueError
  end.

(** The value tags of the whole enumeration. *)
Definition CallType_values : list string :=
  ["CALL"; "DELEGATECALL"; "STATICCALL"; "CALLCODE"; "CREATE"; "SELFDESTRUCT"]
    ++ extra_kinds.
End Enumeration.

Module ParityTrace.
Record t : Type := mk {
  error : option string;
  action : ParityTraceAction;
  block_hash : string;
  call_type : CallType;
  result : option ParityTraceResult;
  subtraces : Z;
  trace_address : list Z;
  transaction_hash : string
}.

Section Validator.
Variable extra_kinds : list string.

(** [@field_validator("call_type", mode="before")].  [value] is the raw
    outer [type] field; [data_action] is [info.data.get("action")], which
    is missing when the action failed to decode. *)
Definition convert_call_type (value : pyval) (data_action : option ParityTraceAction)
  : outcome CallType :=
  act ← match data_action with
        | Some a => Ok a
        | None => Raise KeyError
        end;
  let value :=
    match act with
    | ActCall a => PStr (CallAction.call_type a)
    | _ => value
    end in
  value ← py_upper value;
  let value := if equals_text value "SUICIDE" then PStr "SELFDESTRUCT" else value in
  CallType_call extra_kinds value.
End Validator.
End ParityTrace.

(** ** Tree assembler *)

(** [o is not None] *)
Definition is_not_None {A} (o : option A) : bool :=
  match o with
  | Some _ => true
  | None => false
  end.

(** An [Optional[str]] attribute as a value. *)
Definition of_optional_str (o : option string) : pyval :=
  match o with
  | Some s => PStr s
  | None => PNone
  end.

(** [l[:-1]]: the list without its last element (empty for the empty list). *)
Definition drop_last {A} (l : list A) : list A :=
  take (length l - 1) l.

(** The condition of the comprehension that selects the sub-traces of
    [root]. *)
Definition subtrace_of (root sub : ParityTrace.t) : Prop :=
  length (ParityTrace.trace_address sub)
    = (length (ParityTrace.trace_address root) + 1)%nat
  ∧ drop_last (ParityTrace.trace_address sub) = ParityTrace.trace_address root.

Global Instance subtrace_of_dec root sub : Decision (subtrace_of root sub).
Proof. unfold subtrace_of. apply _. Defined.

(** [[sub for sub in trace_list if ...]] *)
Definition children_of (trace_list : list ParityTrace.t) (root : ParityTrace.t)
  : list ParityTrace.t :=
  filter (subtrace_of root) trace_list.

(** The kind-dependent [node_kwargs.update(...)] calls.  Keyword arguments
    are evaluated left to right before the dictionary is touched. *)
Definition project (root : ParityTrace.t) (node_kwargs : node) : outcome node :=
  match ParityTrace.call_type root with
  | CREATE =>
      let create_action := ParityTrace.action root in
      let create_result := ParityTrace.result root in
      value ← Attr.value create_action;
      gas_limit ← Attr.gas create_action;
      calldata ← Attr.init create_action;
      let node_kwargs :=
        <["calldata" := PStr calldata]>
          (<["gas_limit" := PInt gas_limit]>
             (<["value" := PInt value]> node_kwargs)) in
      match create_result with
      | Some r =>
          let gas_cost := Attr.gas_used r in
          address ← Attr.result_address r;
          Ok (<["address" := PStr address]>
                (<["gas_cost" := PInt gas_cost]> node_kwargs))
      | None => Ok node_kwargs
      end
  | CALL | DELEGATECALL | STATICCALL | CALLCODE =>
      let call_action := ParityTrace.action root in
      let call_result := ParityTrace.result root in
      address ← Attr.receiver call_action;
      value ← Attr.value call_action;
      gas_limit ← Attr.gas call_action;
      calldata ← Attr.input call_action;
      let node_kwargs :=
        <["calldata" := of_optional_str calldata]>
          (<["gas_limit" := PInt gas_limit]>
             (<["value" := PInt value]>
                (<["address" := of_optional_str address]> node_kwargs))) in
      match call_result with
      | Some r =>
          let gas_cost := Attr.gas_used r in
          returndata ← Attr.output r;
          Ok (<["returndata" := PStr returndata]>
                (<["gas_cost" := PInt gas_cost]> node_kwargs))
      | None => Ok node_kwargs
      end
  | SELFDESTRUCT =>
      let selfdestruct_action := ParityTrace.action root in
      address ← Attr.address selfdestruct_action;
      Ok (<["address" := PStr address]> node_kwargs)
  | OTHER _ => Ok node_kwargs
  end.

(** The longest trace address of the record set. *)
Definition max_depth (traces : list ParityTrace.t) : nat :=
  foldr (fun r m => Nat.max (length (ParityTrace.trace_address r)) m) 0%nat traces.

(** [root or traces.root[0]] *)
Definition root_or_first (traces : list ParityTrace.t) (root : option ParityTrace.t)
  : outcome ParityTrace.t :=
  match root with
  | Some r => Ok r
  | None =>
      match traces with
      | r :: _ => Ok r
      | [] => Raise IndexError
      end
  end.

Section Assembler.
(** [CallTreeNode.model_validate]: from the keyword dictionary to the fields
    of the node, or an exception.  The class is not part of the sources at
    hand, so its validation is a parameter. *)
Variable model_validate : node -> outcome node.

(** The body of [get_calltree_from_parity_trace] once [root] is known.  The
    recursive call [get_calltree_from_parity_trace(traces, root=sub)] passes
    no keyword overrides.  [budget] bounds the nesting of recursive calls; the
    interpreter's own recursion limit is not part of the embedding. *)
Fixpoint calltree (budget : nat) (traces : list ParityTrace.t)
    (root : ParityTrace.t) (root_kwargs : node) : outcome node :=
  match budget with
  | O => Raise RecursionBudget
  | S budget' =>
      let failed := is_not_None (ParityTrace.error root) in
      let node_kwargs : node :=
        <["failed" := PBool failed]>
          (<["call_type" := PEnum (ParityTrace.call_type root)]> ∅) in
      node_kwargs ← project root node_kwargs;
      let subtraces := children_of traces root in
      calls ← mapM (fun sub => calltree budget' traces sub ∅) subtraces;
      let node_kwargs := <["calls" := PList (PNode <$> calls)]> node_kwargs in
      let node_kwargs := root_kwargs ∪ node_kwargs in
      model_validate node_kwargs
  end.

(** [get_calltree_from_parity_trace(traces, root=None, **root_kwargs)].  A
    sub-trace is one element longer than its root, so recursive calls nest at
    most [max_depth traces] deep below the first one. *)
Definition get_calltree_from_parity_trace (traces : list ParityTrace.t)
    (root : option ParityTrace.t) (root_kwargs : node) : outcome node :=
  root ← root_or_first traces root;
  calltree (S (max_depth traces)) traces root root_kwargs.

(** The dictionary [node_kwargs] as it stands before the overrides are merged
    into it: base fields, projected fields and the assembled children. *)
Definition derived_kwargs (traces : list ParityTrace.t) (root : ParityTrace.t)
  : outcome node :=
  node_kwargs ← project root
    (<["failed" := PBool (is_not_None (ParityTrace.error root))]>
       (<["call_type" := PEnum (ParityTrace.call_type root)]> ∅));
  calls ← mapM (fun sub => get_calltree_from_parity_trace traces (Some sub) ∅)
            (children_of traces root);
  Ok (<["calls" := PList (PNode <$> calls)]> node_kwargs).

(** A node class that stores the value it is given for field [k]. *)
Definition stores_field (k : string) : Prop :=
  forall (kwargs n : node) (v : pyval),
    model_validate kwargs = Ok n -> kwargs !! k = Some v -> n !! k = Some v.
End Assembler.

(** ** Reference notions for the statements *)

(** Text that consists of hexadecimal digits only. *)
Fixpoint all_hex (s : string) : bool :=
  match s with
  | String c r =>
      match hex_digit c with
      | Some _ => all_hex r
      | None => false
      end
  | EmptyString => true
  end.

(** The integer that a run of hexadecimal digits denotes in base 16, most
    significant digit first. *)
Fixpoint hex_value_from (acc : Z) (s : string) : Z :=
  match s with
  | String c r => hex_value_from (16 * acc + default 0 (hex_digit c)) r
  | EmptyString => acc
  end.

Definition hex_value (s : string) : Z := hex_value_from 0 s.

(** Text whose first character after leading white space is a minus sign. *)
Definition minus_signed (s : string) : bool :=
  match skip_spaces s with
  | String "-" _ => true
  | _ => false
  end.

(** [member.value] for a member of [CallType]. *)
Definition CallType_value (k : CallType) : string :=
  match k with
  | CALL => "CALL"
  | DELEGATECALL => "DELEGATECALL"
  | STATICCALL => "STATICCALL"
  | CALLCODE => "CALLCODE"
  | CREATE => "CREATE"
  | SELFDESTRUCT => "SELFDESTRUCT"
  | OTHER tag => tag
  end.

(** Kind normalization in the words of the specification: uppercase the raw
    tag, resolve the alias, look the tag up in the enumeration. *)
Definition resolve_alias (tag : string) : string :=
  if decide (tag = "SUICIDE") then "SELFDESTRUCT" else tag.

Definition normalized_kind (extra_kinds : list string) (raw : string) : outcome CallType :=
  CallType_of_value extra_kinds (resolve_alias (upper raw)).

(** [root.call_type in (CALL, DELEGATECALL, STATICCALL, CALLCODE)] *)
Definition call_family (k : CallType) : Prop :=
  k ∈ [CALL; DELEGATECALL; STATICCALL; CALLCODE].

(** The payload classes that the projection of a kind reads from. *)
Definition payload_fits (r : ParityTrace.t) : bool :=
  match ParityTrace.call_type r with
  | CREATE =>
      match ParityTrace.action r, ParityTrace.result r with
      | ActCreate _, None | ActCreate _, Some (ResCreate _) => true
      | _, _ => false
      end
  | CALL | DELEGATECALL | STATICCALL | CALLCODE =>
      match ParityTrace.action r, ParityTrace.result r with
      | ActCall _, None | ActCall _, Some (ResCall _) => true
      | _, _ => false
      end
  | SELFDESTRUCT =>
      match ParityTrace.action r with
      | ActSelfDestruct _ => true
      | _ => false
      end
  | OTHER _ => true
  end.

(** The fields that the kind-dependent projection may set. *)
Definition projected_fields : list string :=
  ["value"; "gas_limit"; "calldata"; "gas_cost"; "address"; "returndata"].

(** The fields that the projection sets for a record, by its kind and the
    presence of a result. *)
Definition fields_of (r : ParityTrace.t) : gset string :=
  match ParityTrace.call_type r with
  | CREATE =>
      {["value"; "gas_limit"; "calldata"]}
        ∪ (if is_not_None (ParityTrace.result r) then {["gas_cost"; "address"]} else ∅)
  | CALL | DELEGATECALL | STATICCALL | CALLCODE =>
      {["address"; "value"; "gas_limit"; "calldata"]}
        ∪ (if is_not_None (ParityTrace.result r) then {["gas_cost"; "returndata"]} else ∅)
  | SELFDESTRUCT => {["address"]}
  | OTHER _ => ∅
  end.

(** The fields that every node has. *)
Definition base_fields : gset string := {["call_type"; "failed"; "calls"]}.

(** Overrides that leave the projected fields alone. *)
Definition keeps_projection (root_kwargs : node) : Prop :=
  forall k, k ∈ projected_fields -> root_kwargs !! k = None.

(** Text that consists of white space only. *)
Fixpoint all_space (s : string) : bool :=
  match s with
  | String c r => is_space c && all_space r
  | EmptyString => true
  end.

(** Text that starts with neither white space nor a sign. *)
Definition starts_plain (s : string) : bool :=
  match s with
  | String c _ => negb (is_space c) && negb (Ascii.eqb c "+") && negb (Ascii.eqb c "-")
  | EmptyString => true
  end.

(** A record with the fields that the assembler reads kept and the other
    three replaced. *)
Definition with_metadata (block_hash transaction_hash : string) (subtraces : Z)
    (r : ParityTrace.t) : ParityTrace.t :=
  ParityTrace.mk (ParityTrace.error r) (ParityTrace.action r) block_hash
    (ParityTrace.call_type r) (ParityTrace.result r) subtraces
    (ParityTrace.trace_address r) transaction_hash.

(** A change of records that keeps the five fields that the assembler
    reads. *)
Definition keeps_read_fields (g : ParityTrace.t -> ParityTrace.t) : Prop :=
  forall r,
    ParityTrace.error (g r) = ParityTrace.error r
    /\ ParityTrace.action (g r) = ParityTrace.action r
    /\ ParityTrace.call_type (g r) = ParityTrace.call_type r
    /\ ParityTrace.result (g r) = ParityTrace.result r
    /\ ParityTrace.trace_address (g r) = ParityTrace.trace_address r.

(** The records at or below [root]: those whose address extends the
    address of [root]. *)
Definition below (root r : ParityTrace.t) : Prop :=
  ParityTrace.trace_address root `prefix_of` ParityTrace.trace_address r.

Global Instance below_dec root r : Decision (below root r).
Proof. unfold below. apply _. Defined.

(** The two stages of [parse_digits], named for the statements about it: the
    test for a leading underscore, and what follows the digit loop. *)
Definition starts_with_underscore (s : string) : bool :=
  match s with
  | String c _ => Ascii.eqb c "_"
  | EmptyString => false
  end.

Definition finish_digits (negative : bool) (scanned : option (Z * nat * string))
  : outcome Z :=
  match scanned with
  | None => Raise ValueError
  | Some (n, digits, rest) =>
      match digits with
      | O => Raise ValueError
      | S _ =>
          match skip_spaces rest with
          | EmptyString => Ok (if negative then - n else n)
          | String _ _ => Raise ValueError
          end
      end
  end.

(** The four numeric field validators of the module. *)
Definition numeric_validators : list (pyval -> outcome Z) :=
  [CallAction.convert_integer; CreateAction.convert_integer;
   SelfDestructAction.convert_integer; ActionResult.convert_integer].

(** ** Sample record sets *)

(** A stand-in for [CallTreeNode.model_validate] at which statements are
    instantiated: it wants a kind, refuses [None] for the byte-string fields
    and stores the other fields as they are given. *)
Definition given_None (kwargs : node) (k : string) : bool :=
  match kwargs !! k with
  | Some PNone => true
  | _ => false
  end.

Definition sample_validate (kwargs : node) : outcome node :=
  match kwargs !! "call_type" with
  | Some (PEnum _) =>
      if given_None kwargs "address" || given_None kwargs "calldata"
         || given_None kwargs "returndata"
      then Raise TypeError
      else Ok kwargs
  | _ => Raise ValidationError
  end.

(** A call from address [..0a] to [..0b] that succeeds, and below it a call
    from [..0b] to [..0c] that reverts. *)
Definition sample_root : ParityTrace.t :=
  ParityTrace.mk None
    (ActCall (CallAction.mk 21000 (Some "0x") (Some "0x000000000000000000000000000000000000000b") "0x000000000000000000000000000000000000000a" 0 "call"))
    "0xblock" CALL (Some (ResCall (CallResult.mk 1 "0x"))) 1 [] "0xtx".

Definition sample_reverted : ParityTrace.t :=
  ParityTrace.mk (Some "reverted")
    (ActCall (CallAction.mk 256 (Some "0x") (Some "0x000000000000000000000000000000000000000c") "0x000000000000000000000000000000000000000b" 0 "call"))
    "0xblock" CALL None 0 [0] "0xtx".

(** A second sub-trace of the root, at index 1, and a deeper one below
    index 0. *)
Definition sample_create : ParityTrace.t :=
  ParityTrace.mk None
    (ActCreate (CreateAction.mk 512 "0x6080" 0))
    "0xblock" CREATE (Some (ResCreate (CreateResult.mk 3 "0x000000000000000000000000000000000000000d" "0x60"))) 0 [1] "0xtx".

Definition sample_deep : ParityTrace.t :=
  ParityTrace.mk None
    (ActSelfDestruct (SelfDestructAction.mk "0x000000000000000000000000000000000000000c" 7))
    "0xblock" SELFDESTRUCT None 0 [0; 0] "0xtx".

(** A second record at address [[0]]. *)
Definition sample_duplicate : ParityTrace.t :=
  ParityTrace.mk None
    (ActCall (CallAction.mk 128 (Some "0x01") (Some "0x000000000000000000000000000000000000000e") "0x000000000000000000000000000000000000000b" 5 "staticcall"))
    "0xblock" STATICCALL (Some (ResCall (CallResult.mk 2 "0x02"))) 0 [0] "0xtx".

(** The sub-trace at index 1 comes before the two records at index 0. *)
Definition sample_traces : list ParityTrace.t :=
  [sample_root; sample_create; sample_reverted; sample_deep; sample_duplicate].

(** A record whose payload does not fit its kind: a creation that carries a
    Call Action. *)
Definition sample_mismatch : ParityTrace.t :=
  ParityTrace.mk None
    (ActCall (CallAction.mk 64 (Some "0x") (Some "0x000000000000000000000000000000000000000f") "0x000000000000000000000000000000000000000c" 0 "create"))
    "0xblock" CREATE None 0 [1; 0] "0xtx".

(** * Properties *)

(** ** The error monad and comprehensions *)

Lemma bind_Ok {A B} (r : outcome A) (k : A -> outcome B) (b : B) :
  (r ≫= k) = Ok b <-> exists a, r = Ok a /\ k a = Ok b.
Proof.
  destruct r as [a|e]; simpl.
  - split; [eauto | intros (a' & [= <-] & H); exact H].
  - split; [discriminate | intros (a' & [=] & _)].
Qed.

Lemma mapM_outcome_ext {A B} (f g : A -> outcome B) (l : list A) :
  (forall x, x ∈ l -> f x = g x) -> mapM f l = mapM g l.
Proof.
  induction l as [|x l IH]; intros Hfg; simpl; [reflexivity|].
  rewrite (Hfg x) by apply list_elem_of_here.
  rewrite IH; [reflexivity|].
  intros y Hy. apply Hfg. by apply list_elem_of_further.
Qed.

Lemma mapM_outcome_Ok {A B} (f : A -> outcome B) (l : list A) (ys : list B) :
  mapM f l = Ok ys <-> Forall2 (fun x y => f x = Ok y) l ys.
Proof.
  revert ys. induction l as [|x l IH]; intros ys; simpl.
  - split.
    + intros [= <-]. constructor.
    + intros H. inversion H. reflexivity.
  - split.
    + intros H. apply bind_Ok in H as (y & Hy & H).
      apply bind_Ok in H as (ys' & Hys & [= <-]).
      constructor; [exact Hy | by apply IH].
    + intros H. inversion H as [|? y ? ys' Hy Hys]; subst.
      rewrite Hy. simpl. apply IH in Hys. rewrite Hys. reflexivity.
Qed.

Lemma mapM_outcome_total {A B} (f : A -> outcome B) (l : list A) :
  (forall x, x ∈ l -> exists y, f x = Ok y) -> exists ys, mapM f l = Ok ys.
Proof.
  induction l as [|x l IH]; intros Hf; simpl; [by eexists|].
  destruct (Hf x) as [y Hy]; [apply list_elem_of_here|].
  destruct IH as [ys Hys].
  { intros z Hz. apply Hf. by apply list_elem_of_further. }
  exists (y :: ys). rewrite Hy. simpl. rewrite Hys. reflexivity.
Qed.

(** ** Numerals *)

(** A hexadecimal digit is worth less than sixteen and is none of the
    characters that the parser treats specially. *)
Lemma hex_digit_plain (c : ascii) (d : Z) :
  hex_digit c = Some d ->
  0 <= d < 16
  /\ is_space c = false
  /\ Ascii.eqb c "_" = false
  /\ Ascii.eqb c "x" = false
  /\ Ascii.eqb c "X" = false
  /\ (forall r, strip_sign (String c r) = (false, String c r)).
Proof.
  destruct c as [[] [] [] [] [] [] [] []]; vm_compute; intros [= <-];
    repeat split; intros; discriminate.
Qed.

Lemma scan_digits_all_hex (s : string) :
  forall (acc : Z) (n : nat),
    all_hex s = true ->
    scan_digits false acc n s = Some (hex_value_from acc s, (n + String.length s)%nat, "").
Proof.
  induction s as [|c r IH]; intros acc n Hs; simpl.
  - by rewrite Nat.add_0_r.
  - simpl in Hs. destruct (hex_digit c) as [d|] eqn:Hc; [|discriminate].
    destruct (hex_digit_plain c d Hc) as (_ & _ & -> & _).
    simpl. rewrite (IH _ _ Hs). do 3 f_equal. lia.
Qed.

Lemma hex_value_from_nonneg (s : string) :
  forall acc, 0 <= acc -> 0 <= hex_value_from acc s.
Proof.
  induction s as [|c r IH]; intros acc Hacc; simpl; [exact Hacc|].
  apply IH. destruct (hex_digit c) as [d|] eqn:Hc; simpl; [|lia].
  destruct (hex_digit_plain c d Hc) as (? & _). lia.
Qed.

Lemma scan_digits_nonneg (s : string) :
  forall (p : bool) (acc : Z) (k k' : nat) (n : Z) (rest : string),
    scan_digits p acc k s = Some (n, k', rest) -> 0 <= acc -> 0 <= n.
Proof.
  induction s as [|c r IH]; intros p acc k k' n rest; simpl.
  - destruct p; [discriminate|]. intros [= <- _ _]. done.
  - destruct (Ascii.eqb c "_").
    + destruct p; [discriminate|]. apply IH.
    + destruct (hex_digit c) as [d|] eqn:Hc.
      * intros H Hacc. apply (IH _ _ _ _ _ _ H).
        destruct (hex_digit_plain c d Hc) as (? & _). lia.
      * destruct p; [discriminate|]. intros [= <- _ _]. done.
Qed.

(** The marker is not found in front of a run of digits. *)
Lemma strip_marker_all_hex (s : string) :
  all_hex s = true -> strip_marker s = s.
Proof.
  destruct s as [|c r]; [reflexivity|].
  destruct r as [|c' r']; simpl.
  - intros _. by destruct c as [[] [] [] [] [] [] [] []].
  - destruct (hex_digit c); [|discriminate].
    destruct (hex_digit c') as [d'|] eqn:Hc'; [|discriminate].
    destruct (hex_digit_plain c' d' Hc') as (_ & _ & _ & Hx & HX & _).
    intros _. rewrite Hx, HX. simpl.
    by destruct c as [[] [] [] [] [] [] [] []].
Qed.

Lemma int_of_text16_stages (s : string) :
  int_of_text16 s =
    parse_digits (strip_sign (skip_spaces s)).1
      (strip_marker (strip_sign (skip_spaces s)).2).
Proof.
  unfold int_of_text16.
  by destruct (strip_sign (skip_spaces s)) as [negative s1].
Qed.

Lemma parse_digits_all_hex (negative : bool) (s : string) :
  s <> "" -> all_hex s = true ->
  parse_digits negative s = Ok (if negative then - hex_value s else hex_value s).
Proof.
  intros Hne Hs. unfold parse_digits.
  rewrite (scan_digits_all_hex s 0 0 Hs).
  destruct s as [|c r]; [done|]. simpl in Hs.
  destruct (hex_digit c) as [d|] eqn:Hc; [|discriminate].
  destruct (hex_digit_plain c d Hc) as (_ & _ & Hu & _).
  destruct c as [[] [] [] [] [] [] [] []]; try reflexivity.
  discriminate Hu.
Qed.

Lemma skip_spaces_all_hex (s : string) : all_hex s = true -> skip_spaces s = s.
Proof.
  destruct s as [|c r]; [reflexivity|]. simpl.
  destruct (hex_digit c) as [d|] eqn:Hc; [|discriminate].
  destruct (hex_digit_plain c d Hc) as (_ & -> & _). reflexivity.
Qed.

Lemma strip_sign_all_hex (s : string) : all_hex s = true -> strip_sign s = (false, s).
Proof.
  destruct s as [|c r]; [reflexivity|]. intros Hs. simpl in Hs.
  destruct (hex_digit c) as [d|] eqn:Hc; [|discriminate].
  by destruct (hex_digit_plain c d Hc) as (_ & _ & _ & _ & _ & ->).
Qed.

(** Directly after the marker no underscore is dropped from a run of
    digits. *)
Lemma after_marker_all_hex (s : string) :
  all_hex s = true ->
  match s with String "_" r' => r' | _ => s end = s.
Proof.
  destruct s as [|c r]; [reflexivity|]. simpl.
  destruct (hex_digit c) as [d|] eqn:Hc; [|discriminate].
  destruct (hex_digit_plain c d Hc) as (_ & _ & Hu & _). intros _.
  destruct c as [[] [] [] [] [] [] [] []]; try reflexivity.
  discriminate Hu.
Qed.

(** A run of hexadecimal digits is accepted as it is, after a marker, after
    a minus sign, and after both; the marker does not change the value and
    the minus sign negates it. *)
Lemma int_of_text16_all_hex (s : string) :
  s <> "" -> all_hex s = true ->
  int_of_text16 s = Ok (hex_value s)
  /\ int_of_text16 ("0x" ++ s) = Ok (hex_value s)
  /\ int_of_text16 ("0X" ++ s) = Ok (hex_value s)
  /\ int_of_text16 ("-" ++ s) = Ok (- hex_value s)
  /\ int_of_text16 ("-0x" ++ s) = Ok (- hex_value s).
Proof.
  intros Hne Hs.
  change ("0x" ++ s)%string with (String "0" (String "x" s)).
  change ("0X" ++ s)%string with (String "0" (String "X" s)).
  change ("-" ++ s)%string with (String "-" s).
  change ("-0x" ++ s)%string with (String "-" (String "0" (String "x" s))).
  rewrite !int_of_text16_stages.
  repeat split.
  - rewrite (skip_spaces_all_hex s Hs), (strip_sign_all_hex s Hs). simpl.
    rewrite (strip_marker_all_hex s Hs). by apply parse_digits_all_hex.
  - simpl. rewrite (after_marker_all_hex s Hs). by apply parse_digits_all_hex.
  - simpl. rewrite (after_marker_all_hex s Hs). by apply parse_digits_all_hex.
  - simpl. rewrite (strip_marker_all_hex s Hs). by apply parse_digits_all_hex.
  - simpl. rewrite (after_marker_all_hex s Hs). by apply parse_digits_all_hex.
Qed.

Lemma parse_digits_sign (negative : bool) (s : string) (n : Z) :
  parse_digits negative s = Ok n -> if negative then n <= 0 else 0 <= n.
Proof.
  unfold parse_digits.
  assert (H : match scan_digits false 0 0 s with
              | None => Raise ValueError
              | Some (m, digits, rest) =>
                  match digits with
                  | O => Raise ValueError
                  | S _ =>
                      match skip_spaces rest with
                      | EmptyString => Ok (if negative then - m else m)
                      | String _ _ => Raise ValueError
                      end
                  end
              end = Ok n -> if negative then n <= 0 else 0 <= n).
  { destruct (scan_digits false 0 0 s) as [[[m digits] rest]|] eqn:Hscan; [|discriminate].
    destruct digits; [discriminate|].
    destruct (skip_spaces rest); [|discriminate].
    intros [= <-]. apply scan_digits_nonneg in Hscan; [|lia].
    destruct negative; lia. }
  destruct s as [|c r]; [exact H|].
  destruct c as [[] [] [] [] [] [] [] []]; try exact H. discriminate.
Qed.

(** The sign of a parsed numeral is the sign written in the text. *)
Lemma int_of_text16_sign (s : string) (n : Z) :
  int_of_text16 s = Ok n ->
  if minus_signed s then n <= 0 else 0 <= n.
Proof.
  rewrite int_of_text16_stages. unfold minus_signed.
  intros H. apply parse_digits_sign in H. revert H.
  destruct (skip_spaces s) as [|c r]; [done|].
  by destruct c as [[] [] [] [] [] [] [] []].
Qed.

(** ** Hex-only fields *)







(** ** Signs *)

Lemma dec_digit_range (c : ascii) (d : Z) : dec_digit c = Some d -> 0 <= d < 10.
Proof.
  unfold dec_digit.
  destruct ((48 <=? Z.of_N (N_of_ascii c)) && (Z.of_N (N_of_ascii c) <=? 57)) eqn:H;
    [|discriminate].
  intros [= <-]. lia.
Qed.

Lemma scan_decimal_nonneg (s : string) :
  forall (p : bool) (acc : Z) (k k' : nat) (n : Z) (rest : string),
    scan_decimal p acc k s = Some (n, k', rest) -> 0 <= acc -> 0 <= n.
Proof.
  induction s as [|c r IH]; intros p acc k k' n rest; simpl.
  - destruct p; [discriminate|]. intros [= <- _ _]. done.
  - destruct (Ascii.eqb c "_").
    + destruct p; [discriminate|]. apply IH.
    + destruct (dec_digit c) as [d|] eqn:Hc.
      * intros H Hacc. apply (IH _ _ _ _ _ _ H).
        apply dec_digit_range in Hc. lia.
      * destruct p; [discriminate|]. intros [= <- _ _]. done.
Qed.

Lemma parse_decimal_sign (negative : bool) (s : string) (n : Z) :
  parse_decimal negative s = Ok n -> if negative then n <= 0 else 0 <= n.
Proof.
  unfold parse_decimal.
  assert (H : match scan_decimal false 0 0 s with
              | None => Raise ValueError
              | Some (m, digits, rest) =>
                  match digits with
                  | O => Raise ValueError
                  | S _ =>
                      if (int_max_str_digits <? digits)%nat then Raise ValueError
                      else
                        match skip_spaces rest with
                        | EmptyString => Ok (if negative then - m else m)
                        | String _ _ => Raise ValueError
                        end
                  end
              end = Ok n -> if negative then n <= 0 else 0 <= n).
  { destruct (scan_decimal false 0 0 s) as [[[m digits] rest]|] eqn:Hscan; [|discriminate].
    destruct digits; [discriminate|].
    destruct (int_max_str_digits <? S digits)%nat; [discriminate|].
    destruct (skip_spaces rest); [|discriminate].
    intros [= <-]. apply scan_decimal_nonneg in Hscan; [|lia].
    destruct negative; lia. }
  destruct s as [|c r]; [exact H|].
  destruct c as [[] [] [] [] [] [] [] []]; try exact H. discriminate.
Qed.

Lemma int_of_text10_stages (s : string) :
  int_of_text10 s =
    parse_decimal (strip_sign (skip_spaces s)).1 (strip_sign (skip_spaces s)).2.
Proof.
  unfold int_of_text10.
  by destruct (strip_sign (skip_spaces s)) as [negative s1].
Qed.

(** A decimal numeral, too, has the sign that is written in it. *)
Lemma int_of_text10_sign (s : string) (n : Z) :
  int_of_text10 s = Ok n ->
  if minus_signed s then n <= 0 else 0 <= n.
Proof.
  rewrite int_of_text10_stages. unfold minus_signed.
  intros H. apply parse_decimal_sign in H. revert H.
  destruct (skip_spaces s) as [|c r]; [done|].
  by destruct c as [[] [] [] [] [] [] [] []].
Qed.

Lemma hex_or_native_cases (v : pyval) (n : Z) :
  (if isinstance_str v then int_base16 v else int_native v) = Ok n ->
  (exists s, text_of v = Some s /\ if minus_signed s then n <= 0 else 0 <= n)
  \/ v = PInt n
  \/ (exists b : bool, v = PBool b /\ n = if b then 1 else 0).
Proof.
  destruct v; simpl; try discriminate.
  - intros [= <-]. right. right. eauto.
  - intros [= <-]. right. by left.
  - intros H. left. eexists. split; [reflexivity|]. by apply int_of_text16_sign.
  - intros H. left. eexists. split; [reflexivity|]. by apply int_of_text10_sign.
  - intros H. left. eexists. split; [reflexivity|]. by apply int_of_text10_sign.
Qed.

(** C5, as the code has it: every decoded numeric field is an integer with
    the sign of its input.  It is non-negative when the input is text (or a
    byte string) without a minus sign, a boolean, or a non-negative native
    integer; input denoting a negative value is not rejected: a minus sign
    before a run of hexadecimal digits, and for [balance] and [gas_used] a
    negative native integer, decodes to the negative integer. *)
Theorem numeric_fields_keep_sign :
  (forall v n,
     CallAction.convert_integer v = Ok n \/ CreateAction.convert_integer v = Ok n ->
     exists s, text_of v = Some s /\ if minus_signed s then n <= 0 else 0 <= n)
  /\ (forall v n,
        SelfDestructAction.convert_integer v = Ok n \/ ActionResult.convert_integer v = Ok n ->
        (exists s, text_of v = Some s /\ if minus_signed s then n <= 0 else 0 <= n)
        \/ v = PInt n
        \/ (exists b : bool, v = PBool b /\ 0 <= n))
  /\ (forall digits, digits <> "" -> all_hex digits = true ->
        0 <= hex_value digits
        /\ CallAction.convert_integer (PStr ("-" ++ digits)) = Ok (- hex_value digits)
        /\ CreateAction.convert_integer (PStr ("-" ++ digits)) = Ok (- hex_value digits)
        /\ SelfDestructAction.convert_integer (PStr ("-" ++ digits)) = Ok (- hex_value digits)
        /\ ActionResult.convert_integer (PStr ("-" ++ digits)) = Ok (- hex_value digits))
  /\ (forall z,
        SelfDestructAction.convert_integer (PInt z) = Ok z
        /\ ActionResult.convert_integer (PInt z) = Ok z).
Proof.
  split.
  { intros v n Hv.
    assert (H : int_base16 v = Ok n) by (by destruct Hv).
    unfold int_base16 in H. destruct (text_of v) as [s|]; [|discriminate].
    exists s. split; [reflexivity|]. by apply int_of_text16_sign. }
  split.
  { intros v n Hv.
    assert (H : (if isinstance_str v then int_base16 v else int_native v) = Ok n)
      by (by destruct Hv).
    apply hex_or_native_cases in H as [H | [-> | (b & -> & ->)]].
    - by left.
    - right. by left.
    - right. right. exists b. split; [reflexivity|]. by destruct b. }
  split.
  { intros digits Hne Hd.
    destruct (int_of_text16_all_hex digits Hne Hd) as (_ & _ & _ & Hm & _).
    split; [by apply hex_value_from_nonneg|].
    unfold CallAction.convert_integer, CreateAction.convert_integer,
      SelfDestructAction.convert_integer, ActionResult.convert_integer, int_base16. simpl.
    by rewrite Hm. }
  intros z. split; reflexivity.
Qed.

(** C5, as stated, fails: input denoting a negative value is accepted and
    the decoded field is negative. *)
Lemma negative_numerals_are_decoded :
  CallAction.convert_integer (PStr "-0x1a") = Ok (-26)
  /\ CreateAction.convert_integer (PStr "-1a") = Ok (-26)
  /\ SelfDestructAction.convert_integer (PInt (-5)) = Ok (-5)
  /\ ActionResult.convert_integer (PStr "-0x5") = Ok (-5)
  /\ -26 < 0 /\ -5 < 0.
Proof. repeat split; reflexivity. Qed.

(** ** Hex-or-native fields *)

(** C6, as the code has it: for [balance] and [gas_used] text is parsed as
    hexadecimal and anything else is cast with [int]; ["0x1a"] gives 26, the
    native integer 26 gives 26, and the text ["26"], being text, is read in
    base 16 and gives 38. *)
Theorem hex_or_native_fields :
  (forall s,
     SelfDestructAction.convert_integer (PStr s) = int_of_text16 s
     /\ ActionResult.convert_integer (PStr s) = int_of_text16 s)
  /\ (forall digits, digits <> "" -> all_hex digits = true ->
        SelfDestructAction.convert_integer (PStr digits) = Ok (hex_value digits)
        /\ SelfDestructAction.convert_integer (PStr ("0x" ++ digits)) = Ok (hex_value digits)
        /\ ActionResult.convert_integer (PStr digits) = Ok (hex_value digits)
        /\ ActionResult.convert_integer (PStr ("0x" ++ digits)) = Ok (hex_value digits))
  /\ (forall v, isinstance_str v = false ->
        SelfDestructAction.convert_integer v = int_native v
        /\ ActionResult.convert_integer v = int_native v)
  /\ (forall z,
        SelfDestructAction.convert_integer (PInt z) = Ok z
        /\ ActionResult.convert_integer (PInt z) = Ok z)
  /\ SelfDestructAction.convert_integer (PStr "0x1a") = Ok 26
  /\ ActionResult.convert_integer (PStr "0x1a") = Ok 26
  /\ SelfDestructAction.convert_integer (PInt 26) = Ok 26
  /\ ActionResult.convert_integer (PInt 26) = Ok 26
  /\ SelfDestructAction.convert_integer (PStr "26") = Ok 38
  /\ ActionResult.convert_integer (PStr "26") = Ok 38.
Proof.
  split; [intros s; split; reflexivity|].
  split.
  { intros digits Hne Hd.
    destruct (int_of_text16_all_hex digits Hne Hd) as (H1 & H2 & _).
    unfold SelfDestructAction.convert_integer, ActionResult.convert_integer, int_base16.
    simpl. by rewrite H1, H2. }
  split.
  { intros v Hv. unfold SelfDestructAction.convert_integer, ActionResult.convert_integer.
    by rewrite Hv. }
  split; [intros z; split; reflexivity|].
  repeat split; reflexivity.
Qed.

(** C6, as stated, fails: the text ["26"] normalizes to 38 for the
    hex-or-native fields, not to 26. *)
Lemma hex_or_native_text_26_is_38 :
  SelfDestructAction.convert_integer (PStr "26") = Ok 38
  /\ ActionResult.convert_integer (PStr "26") = Ok 38
  /\ SelfDestructAction.convert_integer (PStr "26") <> Ok 26
  /\ ActionResult.convert_integer (PStr "26") <> Ok 26.
Proof. repeat split; try reflexivity; discriminate. Qed.

(** * Further properties of the numeric normalizer *)

Lemma parse_digits_eq (negative : bool) (s : string) :
  parse_digits negative s =
    if starts_with_underscore s then Raise ValueError
    else finish_digits negative (scan_digits false 0 0 s).
Proof.
  destruct s as [|c r]; [reflexivity|].
  by destruct c as [[] [] [] [] [] [] [] []].
Qed.

(** ** Letter case *)

Lemma upper_char_parse (c : ascii) :
  hex_digit (upper_char c) = hex_digit c
  /\ Ascii.eqb (upper_char c) "_" = Ascii.eqb c "_"
  /\ is_space (upper_char c) = is_space c
  /\ upper_char (upper_char c) = upper_char c.
Proof. by destruct c as [[] [] [] [] [] [] [] []]. Qed.

Lemma upper_idempotent (s : string) : upper (upper s) = upper s.
Proof.
  induction s as [|c r IH]; [reflexivity|]. simpl.
  destruct (upper_char_parse c) as (_ & _ & _ & ->). by rewrite IH.
Qed.

Lemma skip_spaces_upper (s : string) : skip_spaces (upper s) = upper (skip_spaces s).
Proof.
  induction s as [|c r IH]; [reflexivity|]. simpl.
  destruct (upper_char_parse c) as (_ & _ & -> & _).
  by destruct (is_space c).
Qed.

Lemma strip_sign_upper (s : string) :
  strip_sign (upper s) = ((strip_sign s).1, upper (strip_sign s).2).
Proof.
  destruct s as [|c r]; [reflexivity|].
  by destruct c as [[] [] [] [] [] [] [] []].
Qed.

Lemma strip_marker_upper (s : string) : strip_marker (upper s) = upper (strip_marker s).
Proof.
  destruct s as [|c1 r1]; [reflexivity|].
  destruct r1 as [|c2 r2].
  { by destruct c1 as [[] [] [] [] [] [] [] []]. }
  destruct c1 as [[] [] [] [] [] [] [] []]; try reflexivity.
  destruct c2 as [[] [] [] [] [] [] [] []]; try reflexivity.
  - destruct r2 as [|c3 r3]; [reflexivity|].
    by destruct c3 as [[] [] [] [] [] [] [] []].
  - destruct r2 as [|c3 r3]; [reflexivity|].
    by destruct c3 as [[] [] [] [] [] [] [] []].
Qed.

Lemma scan_digits_upper (s : string) :
  forall (p : bool) (acc : Z) (k : nat),
    scan_digits p acc k (upper s) =
      (fun '(n, k', rest) => (n, k', upper rest)) <$> scan_digits p acc k s.
Proof.
  induction s as [|c r IH]; intros p acc k; simpl.
  - by destruct p.
  - destruct (upper_char_parse c) as (-> & -> & _).
    destruct (Ascii.eqb c "_").
    + destruct p; [reflexivity | apply IH].
    + destruct (hex_digit c) as [d|]; [apply IH|].
      by destruct p.
Qed.

Lemma starts_with_underscore_upper (s : string) :
  starts_with_underscore (upper s) = starts_with_underscore s.
Proof.
  destruct s as [|c r]; [reflexivity|]. simpl.
  by destruct (upper_char_parse c) as (_ & -> & _).
Qed.

Lemma parse_digits_upper (negative : bool) (s : string) :
  parse_digits negative (upper s) = parse_digits negative s.
Proof.
  rewrite !parse_digits_eq, starts_with_underscore_upper, scan_digits_upper.
  destruct (starts_with_underscore s); [reflexivity|].
  destruct (scan_digits false 0 0 s) as [[[n k] rest]|]; [|reflexivity]. simpl.
  destruct k; [reflexivity|]. rewrite skip_spaces_upper.
  by destruct (skip_spaces rest).
Qed.

Lemma int_of_text16_upper (s : string) : int_of_text16 (upper s) = int_of_text16 s.
Proof.
  rewrite !int_of_text16_stages, skip_spaces_upper, strip_sign_upper. simpl.
  by rewrite strip_marker_upper, parse_digits_upper.
Qed.

(** X11: the numeric validators do not distinguish letter case: uppercasing
    a text (digits [a] to [f] and the marker's [x]) changes neither whether
    it is accepted nor the integer it decodes to. *)
Theorem numerals_ignore_letter_case (s : string) :
  CallAction.convert_integer (PStr (upper s)) = CallAction.convert_integer (PStr s)
  /\ CreateAction.convert_integer (PStr (upper s)) = CreateAction.convert_integer (PStr s)
  /\ SelfDestructAction.convert_integer (PStr (upper s))
       = SelfDestructAction.convert_integer (PStr s)
  /\ ActionResult.convert_integer (PStr (upper s)) = ActionResult.convert_integer (PStr s).
Proof.
  unfold CallAction.convert_integer, CreateAction.convert_integer,
    SelfDestructAction.convert_integer, ActionResult.convert_integer, int_base16.
  simpl. by rewrite int_of_text16_upper.
Qed.

(** ** White space *)

Lemma append_cons (c : ascii) (r s : string) :
  (String c r ++ s)%string = String c (r ++ s)%string.
Proof. reflexivity. Qed.

Lemma append_nil (s : string) : ("" ++ s)%string = s.
Proof. reflexivity. Qed.

(** A white-space character is none of the characters of a numeral. *)
Lemma space_plain (c : ascii) :
  is_space c = true ->
  hex_digit c = None
  /\ Ascii.eqb c "_" = false
  /\ Ascii.eqb c "x" || Ascii.eqb c "X" = false
  /\ (forall r, strip_sign (String c r) = (false, String c r))
  /\ (forall r, strip_marker (String c r) = String c r)
  /\ (forall r, match String c r with String "_" r' => r' | _ => String c r end
                = String c r).
Proof.
  destruct c as [[] [] [] [] [] [] [] []]; vm_compute; intros [=];
    repeat split; intros; reflexivity.
Qed.

Lemma skip_spaces_all_space (ws : string) : all_space ws = true -> skip_spaces ws = "".
Proof.
  induction ws as [|c r IH]; [reflexivity|]. simpl.
  destruct (is_space c); [apply IH | discriminate].
Qed.

Lemma skip_spaces_leading (ws s : string) :
  all_space ws = true -> skip_spaces (ws ++ s) = skip_spaces s.
Proof.
  induction ws as [|c r IH]; [reflexivity|]. rewrite append_cons. simpl.
  destruct (is_space c); [apply IH | discriminate].
Qed.

Lemma skip_spaces_trailing (s ws : string) :
  all_space ws = true ->
  skip_spaces (s ++ ws) =
    match skip_spaces s with
    | EmptyString => EmptyString
    | String c r => (String c r ++ ws)%string
    end.
Proof.
  intros Hws. induction s as [|c r IH].
  - rewrite append_nil. by apply skip_spaces_all_space.
  - rewrite append_cons. simpl. destruct (is_space c); [apply IH | reflexivity].
Qed.

Lemma strip_sign_trailing (t ws : string) :
  all_space ws = true ->
  strip_sign (t ++ ws) = ((strip_sign t).1, ((strip_sign t).2 ++ ws)%string).
Proof.
  intros Hws. destruct t as [|c r].
  - rewrite append_nil. destruct ws as [|w r]; [reflexivity|].
    simpl in Hws. destruct (is_space w) eqn:Hw; [|discriminate].
    by destruct (space_plain w Hw) as (_ & _ & _ & -> & _).
  - by destruct c as [[] [] [] [] [] [] [] []].
Qed.

Lemma after_marker_all_space (ws : string) :
  all_space ws = true ->
  match ws with String "_" r' => r' | _ => ws end = ws.
Proof.
  destruct ws as [|w r]; [reflexivity|]. simpl.
  destruct (is_space w) eqn:Hw; [|discriminate]. intros _.
  by destruct (space_plain w Hw) as (_ & _ & _ & _ & _ & ->).
Qed.

Lemma strip_marker_trailing (u ws : string) :
  all_space ws = true ->
  strip_marker (u ++ ws) = (strip_marker u ++ ws)%string.
Proof.
  intros Hws. destruct u as [|c1 r1].
  { rewrite !append_nil. destruct ws as [|w r]; [reflexivity|].
    simpl in Hws. destruct (is_space w) eqn:Hw; [|discriminate].
    by destruct (space_plain w Hw) as (_ & _ & _ & _ & -> & _). }
  destruct r1 as [|c2 r2].
  { destruct c1 as [[] [] [] [] [] [] [] []]; try reflexivity.
    destruct ws as [|w r]; [reflexivity|].
    simpl in Hws. destruct (is_space w) eqn:Hw; [|discriminate].
    destruct (space_plain w Hw) as (_ & _ & Hx & _).
    rewrite append_cons, append_nil. simpl. by rewrite Hx. }
  destruct c1 as [[] [] [] [] [] [] [] []]; try reflexivity.
  destruct c2 as [[] [] [] [] [] [] [] []]; try reflexivity.
  - destruct r2 as [|c3 r3].
    + rewrite !append_cons, append_nil. simpl. by apply after_marker_all_space.
    + by destruct c3 as [[] [] [] [] [] [] [] []].
  - destruct r2 as [|c3 r3].
    + rewrite !append_cons, append_nil. simpl. by apply after_marker_all_space.
    + by destruct c3 as [[] [] [] [] [] [] [] []].
Qed.

Lemma scan_digits_trailing (u ws : string) :
  all_space ws = true ->
  forall (p : bool) (acc : Z) (k : nat),
    scan_digits p acc k (u ++ ws) =
      (fun '(n, k', rest) => (n, k', (rest ++ ws)%string)) <$> scan_digits p acc k u.
Proof.
  intros Hws. induction u as [|c r IH]; intros p acc k.
  - rewrite append_nil. destruct ws as [|w r]; [by destruct p|].
    simpl in Hws. destruct (is_space w) eqn:Hw; [|discriminate].
    destruct (space_plain w Hw) as (Hh & Hu & _).
    simpl. rewrite Hh, Hu. by destruct p.
  - rewrite append_cons. simpl.
    destruct (Ascii.eqb c "_").
    + destruct p; [reflexivity | apply IH].
    + destruct (hex_digit c) as [d|]; [apply IH|]. by destruct p.
Qed.

Lemma starts_with_underscore_trailing (u ws : string) :
  all_space ws = true ->
  starts_with_underscore (u ++ ws) = starts_with_underscore u.
Proof.
  intros Hws. destruct u as [|c r]; [|reflexivity].
  rewrite append_nil. destruct ws as [|w r]; [reflexivity|].
  simpl in Hws. destruct (is_space w) eqn:Hw; [|discriminate].
  by destruct (space_plain w Hw) as (_ & Hu & _).
Qed.

Lemma parse_digits_trailing (negative : bool) (u ws : string) :
  all_space ws = true ->
  parse_digits negative (u ++ ws) = parse_digits negative u.
Proof.
  intros Hws.
  rewrite !parse_digits_eq, (starts_with_underscore_trailing u ws Hws),
    (scan_digits_trailing u ws Hws).
  destruct (starts_with_underscore u); [reflexivity|].
  destruct (scan_digits false 0 0 u) as [[[n k] rest]|]; [|reflexivity]. simpl.
  destruct k; [reflexivity|]. rewrite (skip_spaces_trailing rest ws Hws).
  by destruct (skip_spaces rest).
Qed.

Lemma int_of_text16_spaces (ws1 s ws2 : string) :
  all_space ws1 = true -> all_space ws2 = true ->
  int_of_text16 (ws1 ++ s ++ ws2) = int_of_text16 s.
Proof.
  intros H1 H2. rewrite !int_of_text16_stages.
  rewrite (skip_spaces_leading ws1 _ H1), (skip_spaces_trailing s ws2 H2).
  destruct (skip_spaces s) as [|c r].
  - reflexivity.
  - rewrite (strip_sign_trailing (String c r) ws2 H2). simpl.
    by rewrite (strip_marker_trailing _ ws2 H2), (parse_digits_trailing _ _ ws2 H2).
Qed.

(** X12: white space around a numeral is ignored by the numeric validators:
    text with leading and trailing blanks, tabs or line breaks is accepted or
    rejected like the text between them and decodes to the same integer. *)
Theorem numerals_ignore_surrounding_space (ws1 s ws2 : string) :
  all_space ws1 = true -> all_space ws2 = true ->
  CallAction.convert_integer (PStr (ws1 ++ s ++ ws2)) = CallAction.convert_integer (PStr s)
  /\ CreateAction.convert_integer (PStr (ws1 ++ s ++ ws2))
       = CreateAction.convert_integer (PStr s)
  /\ SelfDestructAction.convert_integer (PStr (ws1 ++ s ++ ws2))
       = SelfDestructAction.convert_integer (PStr s)
  /\ ActionResult.convert_integer (PStr (ws1 ++ s ++ ws2))
       = ActionResult.convert_integer (PStr s).
Proof.
  intros H1 H2.
  unfold CallAction.convert_integer, CreateAction.convert_integer,
    SelfDestructAction.convert_integer, ActionResult.convert_integer, int_base16.
  simpl. by rewrite (int_of_text16_spaces ws1 s ws2 H1 H2).
Qed.

Lemma numerals_ignore_surrounding_space_witness :
  CallAction.convert_integer (PStr (" " ++ "0x1a" ++ "  ")) = Ok 26
  /\ ActionResult.convert_integer (PStr (" " ++ "0x1a" ++ "  ")) = Ok 26.
Proof.
  destruct (numerals_ignore_surrounding_space " " "0x1a" "  " eq_refl eq_refl)
    as (H1 & _ & _ & H4).
  split; [rewrite H1 | rewrite H4]; reflexivity.
Defined.

(** ** Signs and size *)

(** On text the four validators are [int_of_text16]. *)
Lemma numeric_validators_text (P : (pyval -> outcome Z) -> Prop) :
  (forall convert, (forall s, convert (PStr s) = int_of_text16 s) -> P convert) ->
  Forall P numeric_validators.
Proof.
  intros HP. unfold numeric_validators.
  repeat constructor; apply HP; intros s; reflexivity.
Qed.

Lemma starts_plain_true (s : string) :
  starts_plain s = true -> skip_spaces s = s /\ strip_sign s = (false, s).
Proof.
  destruct s as [|c r]; [done|].
  destruct c as [[] [] [] [] [] [] [] []]; vm_compute; intros [=]; done.
Qed.

Lemma starts_plain_false (negative : bool) (s : string) :
  starts_plain s = false -> parse_digits negative (strip_marker s) = Raise ValueError.
Proof.
  destruct s as [|c r]; [done|].
  destruct c as [[] [] [] [] [] [] [] []]; vm_compute; intros [=]; done.
Qed.

Lemma parse_digits_negative (s : string) :
  parse_digits true s = Z.opp <$> parse_digits false s.
Proof.
  rewrite !parse_digits_eq.
  destruct (starts_with_underscore s); [reflexivity|].
  destruct (scan_digits false 0 0 s) as [[[n k] rest]|]; [|reflexivity]. simpl.
  destruct k; [reflexivity|]. by destruct (skip_spaces rest).
Qed.

Lemma int_of_text16_signed (s : string) :
  int_of_text16 (String "-" s) = parse_digits true (strip_marker s)
  /\ int_of_text16 (String "+" s) = parse_digits false (strip_marker s).
Proof. by rewrite !int_of_text16_stages. Qed.

(** X13: a sign is accepted directly in front of a numeral only.  For text
    that starts with neither white space nor a sign, a minus sign in front
    negates the decoded integer (and fails where the text fails) and a plus
    sign changes nothing; a sign followed by white space or by another sign
    is rejected with a format error. *)
Theorem sign_prefix (s : string) :
  Forall (fun convert : pyval -> outcome Z =>
    (starts_plain s = true ->
       convert (PStr ("-" ++ s)) = Z.opp <$> convert (PStr s)
       /\ convert (PStr ("+" ++ s)) = convert (PStr s))
    /\ (starts_plain s = false ->
          convert (PStr ("-" ++ s)) = Raise ValueError
          /\ convert (PStr ("+" ++ s)) = Raise ValueError))
    numeric_validators.
Proof.
  apply numeric_validators_text. intros convert Hc.
  change ("-" ++ s)%string with (String "-" s).
  change ("+" ++ s)%string with (String "+" s).
  rewrite !Hc. destruct (int_of_text16_signed s) as [-> ->].
  split.
  - intros Hs. apply starts_plain_true in Hs as [Hsp Hsg].
    rewrite (int_of_text16_stages s), Hsp, Hsg. simpl.
    split; [apply parse_digits_negative | reflexivity].
  - intros Hs. split; by apply starts_plain_false.
Qed.

Lemma skip_spaces_length (s : string) :
  (String.length (skip_spaces s) <= String.length s)%nat.
Proof.
  induction s as [|c r IH]; [done|]. simpl.
  destruct (is_space c); simpl; lia.
Qed.

Lemma strip_sign_length (s : string) :
  (String.length (strip_sign s).2 <= String.length s)%nat.
Proof.
  destruct s as [|c r]; [done|].
  destruct c as [[] [] [] [] [] [] [] []]; simpl; lia.
Qed.

Lemma strip_marker_length (s : string) :
  (String.length (strip_marker s) <= String.length s)%nat.
Proof.
  destruct s as [|c1 r1]; [done|].
  destruct r1 as [|c2 r2].
  { destruct c1 as [[] [] [] [] [] [] [] []]; simpl; lia. }
  destruct c1 as [[] [] [] [] [] [] [] []]; try (simpl; lia).
  destruct c2 as [[] [] [] [] [] [] [] []]; try (simpl; lia).
  - destruct r2 as [|c3 r3]; [simpl; lia|].
    destruct c3 as [[] [] [] [] [] [] [] []]; simpl; lia.
  - destruct r2 as [|c3 r3]; [simpl; lia|].
    destruct c3 as [[] [] [] [] [] [] [] []]; simpl; lia.
Qed.

Lemma scan_digits_bound (s : string) :
  forall (p : bool) (acc : Z) (k k' : nat) (n : Z) (rest : string) (a : Z),
    scan_digits p acc k s = Some (n, k', rest) ->
    0 <= a -> 0 <= acc < 16 ^ a ->
    n < 16 ^ (a + Z.of_nat (String.length s)).
Proof.
  induction s as [|c r IH]; intros p acc k k' n rest a; simpl String.length.
  - simpl. destruct p; [discriminate|]. intros [= <- _ _] Ha Hacc.
    rewrite Z.add_0_r. lia.
  - assert (Hmono : forall x, 0 <= x ->
              16 ^ (x + Z.of_nat (String.length r))
                <= 16 ^ (x + Z.of_nat (S (String.length r)))).
    { intros x Hx. apply Z.pow_le_mono_r; lia. }
    assert (Hstop : 0 <= a -> acc < 16 ^ a ->
                    acc < 16 ^ (a + Z.of_nat (S (String.length r)))).
    { intros Ha Hacc.
      assert (16 ^ a <= 16 ^ (a + Z.of_nat (S (String.length r))))
        by (apply Z.pow_le_mono_r; lia).
      lia. }
    simpl. destruct (Ascii.eqb c "_").
    + destruct p; [discriminate|]. intros H Ha Hacc.
      specialize (IH _ _ _ _ _ _ a H Ha Hacc). specialize (Hmono a Ha). lia.
    + destruct (hex_digit c) as [d|] eqn:Hc.
      * intros H Ha Hacc.
        destruct (hex_digit_plain c d Hc) as (Hd & _).
        assert (Hpow : 16 ^ (a + 1) = 16 * 16 ^ a)
          by (rewrite Z.pow_add_r by lia; lia).
        assert (Hacc' : 0 <= 16 * acc + d < 16 ^ (a + 1)) by lia.
        specialize (IH _ _ _ _ _ _ (a + 1) H ltac:(lia) Hacc').
        replace (a + Z.of_nat (S (String.length r)))
          with (a + 1 + Z.of_nat (String.length r)) by lia.
        exact IH.
      * destruct p; [discriminate|]. intros [= <- _ _] Ha Hacc.
        apply Hstop; lia.
Qed.

Lemma parse_digits_bound (negative : bool) (s : string) (n : Z) :
  parse_digits negative s = Ok n ->
  - 16 ^ Z.of_nat (String.length s) < n < 16 ^ Z.of_nat (String.length s).
Proof.
  rewrite parse_digits_eq.
  destruct (starts_with_underscore s); [discriminate|].
  destruct (scan_digits false 0 0 s) as [[[m k] rest]|] eqn:Hscan; [|discriminate].
  simpl. destruct k; [discriminate|].
  destruct (skip_spaces rest); [|discriminate].
  intros [= <-].
  pose proof (scan_digits_nonneg _ _ _ _ _ _ _ Hscan ltac:(lia)) as Hm.
  pose proof (scan_digits_bound _ _ _ _ _ _ _ 0 Hscan ltac:(lia) ltac:(simpl; lia)) as Hb.
  rewrite Z.add_0_l in Hb. destruct negative; lia.
Qed.

Lemma int_of_text16_bound (s : string) (n : Z) :
  int_of_text16 s = Ok n ->
  - 16 ^ Z.of_nat (String.length s) < n < 16 ^ Z.of_nat (String.length s).
Proof.
  rewrite int_of_text16_stages. intros H. apply parse_digits_bound in H.
  pose proof (skip_spaces_length s) as H1.
  pose proof (strip_sign_length (skip_spaces s)) as H2.
  pose proof (strip_marker_length (strip_sign (skip_spaces s)).2) as H3.
  assert (Hle : 16 ^ Z.of_nat (String.length (strip_marker (strip_sign (skip_spaces s)).2))
                <= 16 ^ Z.of_nat (String.length s))
    by (apply Z.pow_le_mono_r; lia).
  lia.
Qed.

(** X14: the integer decoded from a text of [k] characters lies strictly
    between [-16^k] and [16^k]: every character contributes at most one
    hexadecimal digit. *)
Theorem decoded_numeral_bound :
  Forall (fun convert : pyval -> outcome Z =>
    forall (s : string) (n : Z), convert (PStr s) = Ok n ->
      - 16 ^ Z.of_nat (String.length s) < n < 16 ^ Z.of_nat (String.length s))
    numeric_validators.
Proof.
  apply numeric_validators_text. intros convert Hc s n. rewrite Hc.
  apply int_of_text16_bound.
Qed.

(** ** Underscores *)

Lemma all_hex_app (d1 d2 : string) :
  all_hex (d1 ++ d2) = all_hex d1 && all_hex d2.
Proof.
  induction d1 as [|c r IH]; [reflexivity|]. rewrite append_cons. simpl.
  destruct (hex_digit c); [apply IH | reflexivity].
Qed.

Lemma hex_value_from_app (d1 d2 : string) :
  forall acc, hex_value_from acc (d1 ++ d2) = hex_value_from (hex_value_from acc d1) d2.
Proof.
  induction d1 as [|c r IH]; intros acc; [reflexivity|].
  rewrite append_cons. simpl. apply IH.
Qed.

(** The digit loop runs through a run of digits and goes on behind it. *)
Lemma scan_digits_through (d rest : string) :
  all_hex d = true ->
  forall (p : bool) (acc : Z) (k : nat),
    d <> "" \/ p = false ->
    scan_digits p acc k (d ++ rest) =
      scan_digits false (hex_value_from acc d) (k + String.length d) rest.
Proof.
  induction d as [|c r IH]; intros Hd p acc k Hp.
  - destruct Hp as [Hp | ->]; [done|]. rewrite append_nil. simpl.
    by rewrite Nat.add_0_r.
  - rewrite append_cons. simpl in Hd |- *.
    destruct (hex_digit c) as [v|] eqn:Hc; [|discriminate].
    destruct (hex_digit_plain c v Hc) as (_ & _ & -> & _). simpl.
    rewrite (IH Hd false _ _ (or_intror eq_refl)). f_equal. lia.
Qed.

(** A text that starts with a digit which is not the [0] of a marker is
    neither skipped over nor stripped. *)
Lemma digit_start (c : ascii) (r : string) (v : Z) :
  hex_digit c = Some v ->
  match r with
  | String c2 _ => Ascii.eqb c2 "x" || Ascii.eqb c2 "X" = false
  | EmptyString => True
  end ->
  int_of_text16 (String c r) =
    finish_digits false (scan_digits false 0 0 (String c r)).
Proof.
  intros Hc Hr. rewrite int_of_text16_stages.
  destruct (hex_digit_plain c v Hc) as (_ & Hsp & Hu & _ & _ & Hsg).
  assert (Hskip : skip_spaces (String c r) = String c r) by (simpl; by rewrite Hsp).
  rewrite Hskip, Hsg. cbn [fst snd].
  assert (Hmark : strip_marker (String c r) = String c r).
  { destruct r as [|c2 r2].
    - by destruct c as [[] [] [] [] [] [] [] []].
    - simpl. rewrite Hr. by destruct c as [[] [] [] [] [] [] [] []]. }
  rewrite Hmark, parse_digits_eq. simpl starts_with_underscore. by rewrite Hu.
Qed.

Lemma digits_then (d rest : string) :
  d <> "" -> all_hex d = true ->
  match rest with
  | String c2 _ => Ascii.eqb c2 "x" || Ascii.eqb c2 "X" = false
  | EmptyString => True
  end ->
  int_of_text16 (d ++ rest) =
    finish_digits false
      (scan_digits false (hex_value d) (String.length d) rest).
Proof.
  intros Hne Hd Hrest. destruct d as [|c r]; [done|].
  pose proof Hd as Hd'. simpl in Hd'.
  destruct (hex_digit c) as [v|] eqn:Hc; [|discriminate].
  rewrite append_cons, (digit_start c _ v Hc).
  - rewrite <- append_cons, (scan_digits_through _ rest Hd false 0 0%nat (or_intror eq_refl)).
    reflexivity.
  - destruct r as [|c2 r2]; [rewrite append_nil; exact Hrest|].
    rewrite append_cons. simpl in Hd'.
    destruct (hex_digit c2) as [v2|] eqn:Hc2; [|discriminate].
    by destruct (hex_digit_plain c2 v2 Hc2) as (_ & _ & _ & -> & -> & _).
Qed.

(** X15: an underscore is a digit separator for the numeric validators: one
    underscore between two runs of hexadecimal digits is skipped and the text
    decodes like the digits written together, while a doubled underscore, a
    leading one and a trailing one are rejected with a format error. *)
Theorem underscore_separates_digits (d1 d2 : string) :
  d1 <> "" -> all_hex d1 = true -> d2 <> "" -> all_hex d2 = true ->
  Forall (fun convert : pyval -> outcome Z =>
    convert (PStr (d1 ++ "_" ++ d2)) = Ok (hex_value (d1 ++ d2))
    /\ convert (PStr (d1 ++ d2)) = Ok (hex_value (d1 ++ d2))
    /\ convert (PStr (d1 ++ "__" ++ d2)) = Raise ValueError
    /\ convert (PStr ("_" ++ d1)) = Raise ValueError
    /\ convert (PStr (d1 ++ "_")) = Raise ValueError)
    numeric_validators.
Proof.
  intros Hne1 Hd1 Hne2 Hd2.
  apply numeric_validators_text. intros convert Hc. rewrite !Hc.
  assert (Hval : hex_value (d1 ++ d2) = hex_value_from (hex_value d1) d2)
    by apply hex_value_from_app.
  split; [|split; [|split; [|split]]].
  - rewrite (digits_then d1 _ Hne1 Hd1) by reflexivity.
    change ("_" ++ d2)%string with (String "_" d2). simpl scan_digits.
    rewrite <- (append_nil d2) at 1.
    pose proof (scan_digits_through d2 "" Hd2 true (hex_value d1) (String.length d1)
                  (or_introl Hne2)) as Hs.
    assert (Happ : (d2 ++ "")%string = d2).
    { clear. induction d2 as [|c r IH]; [reflexivity|].
      by rewrite append_cons, IH. }
    rewrite Happ in Hs. rewrite append_nil, Hs. simpl.
    destruct d2 as [|c r]; [done|]. simpl. rewrite Nat.add_succ_r. simpl.
    by rewrite Hval.
  - destruct (int_of_text16_all_hex (d1 ++ d2)) as (-> & _); [| |reflexivity].
    + destruct d1; [done | discriminate].
    + by rewrite all_hex_app, Hd1, Hd2.
  - by rewrite (digits_then d1 _ Hne1 Hd1) by reflexivity.
  - reflexivity.
  - by rewrite (digits_then d1 _ Hne1 Hd1) by reflexivity.
Qed.

Lemma underscore_separates_digits_witness :
  CallAction.convert_integer (PStr ("1" ++ "_" ++ "a")) = Ok 26
  /\ CallAction.convert_integer (PStr ("1" ++ "__" ++ "a")) = Raise ValueError.
Proof.
  pose proof (underscore_separates_digits "1" "a" ltac:(discriminate) eq_refl
                ltac:(discriminate) eq_refl) as H.
  apply Forall_cons in H as [(H1 & _ & H2 & _) _].
  split; [exact H1 | exact H2].
Defined.

(** ** Kind normalization *)

(** Case analysis on the next comparison of [tag] with a literal. *)
Ltac case_tag tag :=
  match goal with
  | |- context [String.eqb tag ?lit] => destruct (String.eqb_spec tag lit) as [->|?]
  end.

Section KindNormalization.
Variable extra_kinds : list string.

Lemma CallType_of_value_member (tag : string) :
  tag ∈ CallType_values extra_kinds ->
  exists k, CallType_of_value extra_kinds tag = Ok k /\ CallType_value k = tag.
Proof.
  unfold CallType_values, CallType_of_value. intros Hin.
  repeat (case_tag tag; [by eexists|]).
  rewrite bool_decide_true; [by eexists|].
  apply elem_of_app in Hin as [Hin|Hin]; [|exact Hin].
  rewrite !elem_of_cons, elem_of_nil in Hin. exfalso. intuition.
Qed.

Lemma CallType_of_value_unknown (tag : string) :
  tag ∉ CallType_values extra_kinds ->
  CallType_of_value extra_kinds tag = Raise ValueError.
Proof.
  unfold CallType_values, CallType_of_value. intros Hin.
  rewrite not_elem_of_app, !not_elem_of_cons in Hin.
  destruct Hin as ((? & ? & ? & ? & ? & ? & _) & Hextra).
  repeat (case_tag tag; [done|]).
  by rewrite bool_decide_false.
Qed.

(** The validator's last three statements are the normalization of the
    text they start from. *)
Lemma convert_call_type_text (raw : string) (act : ParityTraceAction) :
  (forall a, act <> ActCall a) ->
  ParityTrace.convert_call_type extra_kinds (PStr raw) (Some act)
    = normalized_kind extra_kinds raw.
Proof.
  intros Hact. unfold ParityTrace.convert_call_type, normalized_kind, resolve_alias.
  destruct act as [c|a|d]; [|by destruct (Hact a)|]; simpl;
    destruct (String.eqb_spec (upper raw) "SUICIDE");
    by (rewrite decide_True by done) || by (rewrite decide_False by done).
Qed.

Lemma convert_call_type_call_action (outer : pyval) (a : CallAction.t) :
  ParityTrace.convert_call_type extra_kinds outer (Some (ActCall a))
    = normalized_kind extra_kinds (CallAction.call_type a).
Proof.
  unfold ParityTrace.convert_call_type, normalized_kind, resolve_alias. simpl.
  destruct (String.eqb_spec (upper (CallAction.call_type a)) "SUICIDE");
    by (rewrite decide_True by done) || by (rewrite decide_False by done).
Qed.

(** C3: when the decoded action is a Call Action the record's kind is the
    normalization of the action's self-reported kind, whatever the outer
    kind field holds. *)
Theorem call_action_kind_overrides_outer (a : CallAction.t) (outer : pyval) :
  ParityTrace.convert_call_type extra_kinds outer (Some (ActCall a))
    = normalized_kind extra_kinds (CallAction.call_type a)
  /\ (forall outer' : pyval,
        ParityTrace.convert_call_type extra_kinds outer' (Some (ActCall a))
          = ParityTrace.convert_call_type extra_kinds outer (Some (ActCall a)))
  /\ ParityTrace.convert_call_type extra_kinds outer (Some (ActCall a))
       = CallType_of_value extra_kinds
           (if decide (upper (CallAction.call_type a) = "SUICIDE")
            then "SELFDESTRUCT" else upper (CallAction.call_type a)).
Proof.
  split; [apply convert_call_type_call_action|].
  split; [|apply convert_call_type_call_action].
  intros outer'. by rewrite !convert_call_type_call_action.
Qed.

(** C7: kind normalization uppercases the raw tag, maps SUICIDE to
    SELFDESTRUCT and looks the result up in the enumeration: a tag of the
    enumeration gives its member, any other tag fails with the unknown-kind
    error; [suicide] in any letter case gives SELFDESTRUCT. *)
Theorem kind_normalization (raw : string) :
  (forall c, ParityTrace.convert_call_type extra_kinds (PStr raw) (Some (ActCreate c))
               = normalized_kind extra_kinds raw)
  /\ (forall d, ParityTrace.convert_call_type extra_kinds (PStr raw)
                  (Some (ActSelfDestruct d))
                = normalized_kind extra_kinds raw)
  /\ (forall a outer, CallAction.call_type a = raw ->
        ParityTrace.convert_call_type extra_kinds outer (Some (ActCall a))
          = normalized_kind extra_kinds raw)
  /\ (resolve_alias (upper raw) ∈ CallType_values extra_kinds ->
      exists k, normalized_kind extra_kinds raw = Ok k
                /\ CallType_value k = resolve_alias (upper raw))
  /\ (resolve_alias (upper raw) ∉ CallType_values extra_kinds ->
      normalized_kind extra_kinds raw = Raise ValueError)
  /\ (upper raw = "SUICIDE" -> resolve_alias (upper raw) = "SELFDESTRUCT")
  /\ (upper raw <> "SUICIDE" -> resolve_alias (upper raw) = upper raw)
  /\ (upper raw = "SUICIDE" -> normalized_kind extra_kinds raw = Ok SELFDESTRUCT)
  /\ (forall d,
        ParityTrace.convert_call_type extra_kinds (PStr "suicide")
          (Some (ActSelfDestruct d)) = Ok SELFDESTRUCT
        /\ ParityTrace.convert_call_type extra_kinds (PStr "Suicide")
             (Some (ActSelfDestruct d)) = Ok SELFDESTRUCT
        /\ ParityTrace.convert_call_type extra_kinds (PStr "SUICIDE")
             (Some (ActSelfDestruct d)) = Ok SELFDESTRUCT).
Proof.
  split; [intros c; by apply convert_call_type_text|].
  split; [intros d; by apply convert_call_type_text|].
  split; [intros a outer <-; apply convert_call_type_call_action|].
  split; [apply CallType_of_value_member|].
  split; [apply CallType_of_value_unknown|].
  split; [intros ->; reflexivity|].
  split; [intros Hne; unfold resolve_alias; by rewrite decide_False|].
  split; [intros Hs; unfold normalized_kind; rewrite Hs; reflexivity|].
  intros d. repeat split; reflexivity.
Qed.
End KindNormalization.

(** * Further properties of kind normalization *)

Section KindValidator.
Variable extra_kinds : list string.

Lemma CallType_of_value_Ok (tag : string) (k : CallType) :
  CallType_of_value extra_kinds tag = Ok k ->
  CallType_value k = tag /\ tag ∈ CallType_values extra_kinds.
Proof.
  unfold CallType_of_value, CallType_values.
  repeat (case_tag tag; [intros [= <-]; split; [reflexivity|];
                         apply elem_of_app; left;
                         rewrite !elem_of_cons; tauto|]).
  destruct (bool_decide (tag ∈ extra_kinds)) eqn:Hin; [|discriminate].
  intros [= <-]. split; [reflexivity|].
  apply elem_of_app. right. by apply bool_decide_eq_true in Hin.
Qed.

Lemma CallType_of_value_Raise (tag : string) (e : exn) :
  CallType_of_value extra_kinds tag = Raise e -> e = ValueError.
Proof.
  unfold CallType_of_value.
  repeat (case_tag tag; [discriminate|]).
  destruct (bool_decide (tag ∈ extra_kinds)); [discriminate | congruence].
Qed.

(** The text that the validator normalizes: the Call Action's own kind when
    there is one, the outer value otherwise. *)
Lemma convert_call_type_cases (value : pyval) (act : ParityTraceAction) :
  (exists a, act = ActCall a
     /\ ParityTrace.convert_call_type extra_kinds value (Some act)
          = normalized_kind extra_kinds (CallAction.call_type a))
  \/ ((forall a, act <> ActCall a)
      /\ ((exists raw, value = PStr raw
             /\ ParityTrace.convert_call_type extra_kinds value (Some act)
                  = normalized_kind extra_kinds raw)
          \/ ((exists b, value = PBytes b \/ value = PByteArray b)
              /\ ParityTrace.convert_call_type extra_kinds value (Some act)
                   = Raise ValueError)
          \/ (text_of value = None
              /\ ParityTrace.convert_call_type extra_kinds value (Some act)
                   = Raise AttributeError))).
Proof.
  destruct act as [c|a|d].
  - right. split; [done|]. destruct value; try (right; right; by split).
    + left. eexists. split; [reflexivity|]. by apply convert_call_type_text.
    + right. left. split; [eauto | reflexivity].
    + right. left. split; [eauto | reflexivity].
  - left. exists a. split; [reflexivity|]. apply convert_call_type_call_action.
  - right. split; [done|]. destruct value; try (right; right; by split).
    + left. eexists. split; [reflexivity|]. by apply convert_call_type_text.
    + right. left. split; [eauto | reflexivity].
    + right. left. split; [eauto | reflexivity].
Qed.

(** X16: the kind validator raises [KeyError] exactly when the action did
    not decode, [AttributeError] exactly when the action is not a Call Action
    and the outer kind has no method [upper] (it is neither text nor a byte
    string), and otherwise only [ValueError], which is what a byte-string
    outer kind ends in; a kind that it returns is a member of the
    enumeration. *)
Theorem kind_validator_outcomes (value : pyval) (data_action : option ParityTraceAction) :
  (ParityTrace.convert_call_type extra_kinds value data_action = Raise KeyError
     <-> data_action = None)
  /\ (ParityTrace.convert_call_type extra_kinds value data_action = Raise AttributeError
        <-> exists act, data_action = Some act
              /\ (forall a, act <> ActCall a)
              /\ text_of value = None)
  /\ (forall e, ParityTrace.convert_call_type extra_kinds value data_action = Raise e ->
        e = KeyError \/ e = AttributeError \/ e = ValueError)
  /\ (forall k, ParityTrace.convert_call_type extra_kinds value data_action = Ok k ->
        CallType_value k ∈ CallType_values extra_kinds)
  /\ (forall act b, (forall a, act <> ActCall a) ->
        ParityTrace.convert_call_type extra_kinds (PBytes b) (Some act) = Raise ValueError
        /\ ParityTrace.convert_call_type extra_kinds (PByteArray b) (Some act)
             = Raise ValueError).
Proof.
  split; [|split; [|split; [|split]]].
  5:{ intros act b Hact. destruct act as [c|a|d]; [done | by destruct (Hact a) | done]. }
  all: destruct data_action as [act|];
    [destruct (convert_call_type_cases value act)
       as [(a & -> & Hc) | (Hact & [(raw & -> & Hc) | [([b Hb] & Hc) | (Hv & Hc)]])];
     rewrite Hc; unfold normalized_kind|].
  - split; [intros H; by apply CallType_of_value_Raise in H | done].
  - split; [intros H; by apply CallType_of_value_Raise in H | done].
  - done.
  - done.
  - done.
  - split; [intros H; by apply CallType_of_value_Raise in H|].
    intros (act & [= <-] & Hact & _). by destruct (Hact a).
  - split; [intros H; by apply CallType_of_value_Raise in H|].
    by intros (act' & _ & _ & [=]).
  - split; [done|]. intros (act' & _ & _ & Hn). by destruct Hb as [-> | ->].
  - split; [eauto | done].
  - split; [done | by intros (? & [=] & _)].
  - intros e H. apply CallType_of_value_Raise in H. tauto.
  - intros e H. apply CallType_of_value_Raise in H. tauto.
  - intros e [= <-]. tauto.
  - intros e [= <-]. tauto.
  - intros e [= <-]. tauto.
  - intros k H. apply CallType_of_value_Ok in H as [-> H]. exact H.
  - intros k H. apply CallType_of_value_Ok in H as [-> H]. exact H.
  - done.
  - done.
  - done.
Qed.

(** X17: kind normalization does not distinguish letter case: uppercasing
    the outer kind text, or a Call Action's self-reported kind, changes
    neither the kind nor the failure. *)
Theorem kind_ignores_letter_case (raw : string) (outer : pyval)
    (data_action : option ParityTraceAction) (a : CallAction.t) :
  ParityTrace.convert_call_type extra_kinds (PStr (upper raw)) data_action
    = ParityTrace.convert_call_type extra_kinds (PStr raw) data_action
  /\ ParityTrace.convert_call_type extra_kinds outer
       (Some (ActCall (CallAction.mk (CallAction.gas a) (CallAction.input a)
                         (CallAction.receiver a) (CallAction.sender a)
                         (CallAction.value a) (upper (CallAction.call_type a)))))
     = ParityTrace.convert_call_type extra_kinds outer (Some (ActCall a)).
Proof.
  split.
  - destruct data_action as [[c|a'|d]|]; try reflexivity.
    + rewrite !convert_call_type_text by done.
      unfold normalized_kind. by rewrite upper_idempotent.
    + rewrite !convert_call_type_text by done.
      unfold normalized_kind. by rewrite upper_idempotent.
  - rewrite !convert_call_type_call_action. simpl.
    unfold normalized_kind. by rewrite upper_idempotent.
Qed.

Lemma resolve_alias_stable (raw : string) :
  resolve_alias (upper raw) <> "SUICIDE"
  /\ upper (resolve_alias (upper raw)) = resolve_alias (upper raw)
  /\ resolve_alias (resolve_alias (upper raw)) = resolve_alias (upper raw).
Proof.
  unfold resolve_alias. destruct (decide (upper raw = "SUICIDE")) as [He|Hne].
  - repeat split; done.
  - split; [done|]. split; [apply upper_idempotent|]. by rewrite decide_False.
Qed.

(** X18: a kind that the validator returns is a fixed point of the
    normalization: its value tag is in uppercase, it is never [SUICIDE], and
    validating that tag again as an outer kind returns the same kind. *)
Theorem normalized_kind_is_stable (value : pyval) (data_action : option ParityTraceAction)
    (k : CallType) :
  ParityTrace.convert_call_type extra_kinds value data_action = Ok k ->
  upper (CallType_value k) = CallType_value k
  /\ CallType_value k <> "SUICIDE"
  /\ (forall c, ParityTrace.convert_call_type extra_kinds (PStr (CallType_value k))
                  (Some (ActCreate c)) = Ok k)
  /\ (forall d, ParityTrace.convert_call_type extra_kinds (PStr (CallType_value k))
                  (Some (ActSelfDestruct d)) = Ok k).
Proof.
  intros Hk.
  assert (Hraw : exists raw, normalized_kind extra_kinds raw = Ok k).
  { destruct data_action as [act|]; [|discriminate].
    destruct (convert_call_type_cases value act)
      as [(a & -> & Hc) | (Hact & [(raw & -> & Hc) | [(_ & Hc) | (Hv & Hc)]])];
      rewrite Hc in Hk; [eauto | eauto | discriminate | discriminate]. }
  destruct Hraw as [raw Hraw]. unfold normalized_kind in Hraw.
  pose proof Hraw as Hraw'. apply CallType_of_value_Ok in Hraw' as [Hval _].
  destruct (resolve_alias_stable raw) as (Hne & Hup & Hal).
  rewrite Hval. split; [exact Hup|]. split; [exact Hne|].
  assert (Hagain : normalized_kind extra_kinds (resolve_alias (upper raw)) = Ok k).
  { unfold normalized_kind. by rewrite Hup, Hal. }
  split; intros x; by rewrite convert_call_type_text.
Qed.
End KindValidator.

Lemma normalized_kind_is_stable_witness :
  upper (CallType_value SELFDESTRUCT) = CallType_value SELFDESTRUCT
  /\ CallType_value SELFDESTRUCT <> "SUICIDE"
  /\ (forall c, ParityTrace.convert_call_type ["CREATE2"]
                  (PStr (CallType_value SELFDESTRUCT)) (Some (ActCreate c))
                = Ok SELFDESTRUCT)
  /\ (forall d, ParityTrace.convert_call_type ["CREATE2"]
                  (PStr (CallType_value SELFDESTRUCT)) (Some (ActSelfDestruct d))
                = Ok SELFDESTRUCT).
Proof.
  apply (normalized_kind_is_stable ["CREATE2"] (PStr "Suicide")
           (Some (ActSelfDestruct (SelfDestructAction.mk "0xC" 7))) SELFDESTRUCT).
  reflexivity.
Defined.

(** * Properties of the assembler *)

Set Warnings "-clear-no-such-hyp".

(** ** Sub-traces *)

Lemma max_depth_bound (traces : list ParityTrace.t) (r : ParityTrace.t) :
  r ∈ traces -> (length (ParityTrace.trace_address r) <= max_depth traces)%nat.
Proof.
  induction traces as [|t traces IH]; intros Hr.
  - by apply not_elem_of_nil in Hr.
  - apply elem_of_cons in Hr as [-> | Hr]; simpl; [lia|].
    specialize (IH Hr). lia.
Qed.

Lemma children_of_spec (traces : list ParityTrace.t) (root sub : ParityTrace.t) :
  sub ∈ children_of traces root <-> subtrace_of root sub /\ sub ∈ traces.
Proof. unfold children_of. apply list_elem_of_filter. Qed.

Lemma children_of_deeper (traces : list ParityTrace.t) (root sub : ParityTrace.t) :
  sub ∈ children_of traces root ->
  length (ParityTrace.trace_address sub) = S (length (ParityTrace.trace_address root))
  /\ (length (ParityTrace.trace_address sub) <= max_depth traces)%nat.
Proof.
  intros H. apply children_of_spec in H as [[Hlen _] Hin].
  split; [lia | by apply max_depth_bound].
Qed.

Lemma drop_last_snoc {A} (l : list A) (x : A) : drop_last (l ++ [x]) = l.
Proof.
  unfold drop_last. rewrite length_app. simpl.
  replace (length l + 1 - 1)%nat with (length l) by lia.
  by rewrite take_app_length.
Qed.

(** A sub-trace's address is its root's address with one index appended. *)
Lemma subtrace_of_snoc (root sub : ParityTrace.t) :
  subtrace_of root sub <->
  exists i, ParityTrace.trace_address sub = ParityTrace.trace_address root ++ [i].
Proof.
  unfold subtrace_of. split.
  - intros [Hlen Hdrop].
    destruct (ParityTrace.trace_address sub) as [|x l] eqn:Haddr using rev_ind;
      [simpl in Hlen; lia|].
    rewrite drop_last_snoc in Hdrop. subst l. by exists x.
  - intros [i ->]. split; [by rewrite length_app | apply drop_last_snoc].
Qed.

Lemma children_of_app (l1 l2 : list ParityTrace.t) (root : ParityTrace.t) :
  children_of (l1 ++ l2) root = children_of l1 root ++ children_of l2 root.
Proof. unfold children_of. apply filter_app. Qed.

Lemma children_of_cons (r : ParityTrace.t) (l : list ParityTrace.t) (root : ParityTrace.t) :
  children_of (r :: l) root =
    if decide (subtrace_of root r) then r :: children_of l root else children_of l root.
Proof. unfold children_of. apply filter_cons. Qed.

(** Sub-traces are selected by the root's address alone. *)
Lemma children_of_same_address (traces : list ParityTrace.t) (a b : ParityTrace.t) :
  ParityTrace.trace_address a = ParityTrace.trace_address b ->
  children_of traces a = children_of traces b.
Proof.
  intros Hab. unfold children_of. apply list_filter_iff.
  intros sub. unfold subtrace_of. by rewrite Hab.
Qed.

Lemma children_of_nil_iff (traces : list ParityTrace.t) (root : ParityTrace.t) :
  children_of traces root = [] <->
  forall r, r ∈ traces ->
    forall i, ParityTrace.trace_address r <> ParityTrace.trace_address root ++ [i].
Proof.
  split.
  - intros Hnil r Hr i Haddr.
    assert (Hin : r ∈ children_of traces root).
    { apply children_of_spec. split; [|exact Hr]. apply subtrace_of_snoc. eauto. }
    rewrite Hnil in Hin. by apply not_elem_of_nil in Hin.
  - intros Hno. destruct (children_of traces root) as [|sub subs] eqn:Hc; [reflexivity|].
    assert (Hin : sub ∈ children_of traces root) by (rewrite Hc; apply list_elem_of_here).
    apply children_of_spec in Hin as [Hsub Hin].
    apply subtrace_of_snoc in Hsub as [i Hi]. by destruct (Hno sub Hin i).
Qed.

(** ** The projection *)

Lemma project_total (r : ParityTrace.t) (node_kwargs : node) :
  payload_fits r = true <-> exists nk, project r node_kwargs = Ok nk.
Proof.
  unfold payload_fits, project.
  destruct (ParityTrace.call_type r), (ParityTrace.action r) as [a|a|a],
    (ParityTrace.result r) as [[c|c]|]; simpl;
    split; try discriminate; try (intros [nk [=]]; fail); eauto.
Qed.

Lemma project_mismatch (r : ParityTrace.t) (nk : node) :
  payload_fits r = false <-> project r nk = Raise AttributeError.
Proof.
  unfold payload_fits, project.
  destruct (ParityTrace.call_type r), (ParityTrace.action r),
    (ParityTrace.result r) as [[c|c]|]; simpl; split; done.
Qed.

Lemma project_raises (r : ParityTrace.t) (nk : node) (e : exn) :
  project r nk = Raise e -> e = AttributeError.
Proof.
  unfold project.
  destruct (ParityTrace.call_type r), (ParityTrace.action r),
    (ParityTrace.result r) as [[c|c]|]; simpl; congruence.
Qed.

Lemma project_frame (r : ParityTrace.t) (nk nk' : node) (k : string) :
  project r nk = Ok nk' -> k ∉ projected_fields -> nk' !! k = nk !! k.
Proof.
  intros Hp Hk. unfold projected_fields in Hk.
  rewrite !not_elem_of_cons in Hk.
  destruct Hk as (? & ? & ? & ? & ? & ? & _).
  revert Hp. unfold project.
  destruct (ParityTrace.call_type r), (ParityTrace.action r),
    (ParityTrace.result r) as [[c|c]|]; simpl; intros [= <-];
    rewrite ?lookup_insert_ne by done; reflexivity.
Qed.

Lemma not_projected_failed : "failed" ∉ projected_fields.
Proof.
  unfold projected_fields. rewrite !not_elem_of_cons.
  repeat split; try done. apply not_elem_of_nil.
Qed.

Lemma call_family_cases (k : CallType) :
  call_family k <-> k = CALL \/ k = DELEGATECALL \/ k = STATICCALL \/ k = CALLCODE.
Proof.
  unfold call_family. rewrite !elem_of_cons, elem_of_nil. tauto.
Qed.

Lemma mapM_outcome_Raise {A B} (f : A -> outcome B) (l : list A) (e : exn) :
  mapM f l = Raise e -> exists x, x ∈ l /\ f x = Raise e.
Proof.
  induction l as [|x l IH]; simpl; [discriminate|].
  destruct (f x) as [y|e'] eqn:Hx; simpl.
  - destruct (mapM f l) as [ys|e'] eqn:Hl; simpl; [discriminate|].
    intros [= ->]. destruct IH as (z & Hz & Hfz); [reflexivity|].
    exists z. split; [by apply list_elem_of_further | exact Hfz].
  - intros [= ->]. exists x. split; [apply list_elem_of_here | exact Hx].
Qed.

Lemma mapM_outcome_fmap {A B C} (f : B -> outcome C) (g : A -> B) (l : list A) :
  mapM f (g <$> l) = mapM (fun x => f (g x)) l.
Proof.
  induction l as [|x l IH]; [reflexivity|].
  rewrite fmap_cons. cbn [mapM]. by rewrite IH.
Qed.

(** The stand-in node class returns the dictionary it accepts. *)
Lemma sample_validate_Ok (kwargs n : node) :
  sample_validate kwargs = Ok n -> n = kwargs.
Proof.
  unfold sample_validate.
  destruct (kwargs !! "call_type") as [[]|]; try discriminate.
  destruct (_ || _); [discriminate|]. by intros [= <-].
Qed.

Lemma sample_validate_stores (k : string) : stores_field sample_validate k.
Proof. intros kwargs n v Hn Hk. by rewrite (sample_validate_Ok _ _ Hn). Qed.

Section AssemblerProperties.
Variable model_validate : node -> outcome node.

(** ** The depth budget *)

(** Any two budgets that exceed the remaining depth give the same outcome. *)
Lemma calltree_budget_irrelevant (traces : list ParityTrace.t) (b1 : nat) :
  forall (b2 : nat) (root : ParityTrace.t) (root_kwargs : node),
    (max_depth traces - length (ParityTrace.trace_address root) < b1)%nat ->
    (max_depth traces - length (ParityTrace.trace_address root) < b2)%nat ->
    calltree model_validate b1 traces root root_kwargs
      = calltree model_validate b2 traces root root_kwargs.
Proof.
  induction b1 as [|b1 IH]; intros b2 root kw H1 H2; [lia|].
  destruct b2 as [|b2]; [lia|].
  simpl. destruct (project root _) as [nk|e]; [simpl | reflexivity].
  rewrite (mapM_outcome_ext (fun sub => calltree model_validate b1 traces sub ∅)
             (fun sub => calltree model_validate b2 traces sub ∅)); [reflexivity|].
  intros sub Hsub. apply children_of_deeper in Hsub as [Hlen Hmax].
  apply IH; lia.
Qed.

Lemma get_calltree_from_parity_trace_Some (traces : list ParityTrace.t)
    (root : ParityTrace.t) (root_kwargs : node) :
  get_calltree_from_parity_trace model_validate traces (Some root) root_kwargs =
    calltree model_validate (S (max_depth traces)) traces root root_kwargs.
Proof. reflexivity. Qed.

(** The body of the Python function, with the recursive calls going through
    the function itself: the derived dictionary is computed, the overrides
    are merged over it, and the result is handed to the node class. *)
Lemma get_calltree_from_parity_trace_unfold (traces : list ParityTrace.t)
    (root : ParityTrace.t) (root_kwargs : node) :
  get_calltree_from_parity_trace model_validate traces (Some root) root_kwargs =
    (computed ← derived_kwargs model_validate traces root;
     model_validate (root_kwargs ∪ computed)).
Proof.
  rewrite get_calltree_from_parity_trace_Some. unfold derived_kwargs. simpl.
  destruct (project root _) as [nk|e]; [simpl | reflexivity].
  rewrite (mapM_outcome_ext
             (fun sub => calltree model_validate (max_depth traces) traces sub ∅)
             (fun sub => get_calltree_from_parity_trace model_validate traces (Some sub) ∅)).
  - by destruct (mapM _ (children_of traces root)).
  - intros sub Hsub. apply children_of_deeper in Hsub as [Hlen Hmax].
    rewrite get_calltree_from_parity_trace_Some.
    apply calltree_budget_irrelevant; lia.
Qed.

(** With no explicit root the first record is the root. *)
Lemma get_calltree_from_parity_trace_default (traces : list ParityTrace.t)
    (first : ParityTrace.t) (rest : list ParityTrace.t) (root_kwargs : node) :
  traces = first :: rest ->
  get_calltree_from_parity_trace model_validate traces None root_kwargs =
    get_calltree_from_parity_trace model_validate traces (Some first) root_kwargs.
Proof. intros ->. reflexivity. Qed.

(** ** The derived dictionary *)

Lemma derived_kwargs_Ok (traces : list ParityTrace.t) (root : ParityTrace.t)
    (computed : node) :
  derived_kwargs model_validate traces root = Ok computed <->
  exists (nk : node) (calls : list node),
    project root
      (<["failed" := PBool (is_not_None (ParityTrace.error root))]>
         (<["call_type" := PEnum (ParityTrace.call_type root)]> ∅)) = Ok nk
    /\ mapM (fun sub => get_calltree_from_parity_trace model_validate traces (Some sub) ∅)
         (children_of traces root) = Ok calls
    /\ computed = <["calls" := PList (PNode <$> calls)]> nk.
Proof.
  unfold derived_kwargs. split.
  - intros H. apply bind_Ok in H as (nk & Hnk & H).
    apply bind_Ok in H as (calls & Hcalls & [= <-]). eauto.
  - intros (nk & calls & -> & Hcalls & ->). simpl. rewrite Hcalls. reflexivity.
Qed.

(** Up to the validation by the node class, assembly raises nothing when the
    root's payload fits its kind and every sub-trace assembles. *)
Lemma derived_kwargs_total (traces : list ParityTrace.t) (root : ParityTrace.t) :
  (payload_fits root = true
   /\ forall sub, sub ∈ children_of traces root ->
        exists m, get_calltree_from_parity_trace model_validate traces (Some sub) ∅ = Ok m)
  <-> exists computed, derived_kwargs model_validate traces root = Ok computed.
Proof.
  split.
  - intros [Hfit Hsubs].
    apply (project_total root
             (<["failed" := PBool (is_not_None (ParityTrace.error root))]>
                (<["call_type" := PEnum (ParityTrace.call_type root)]> ∅)))
      in Hfit as [nk Hnk].
    destruct (mapM_outcome_total _ _ Hsubs) as [calls Hcalls].
    eexists. apply derived_kwargs_Ok. eauto.
  - intros [computed Hc]. apply derived_kwargs_Ok in Hc as (nk & calls & Hp & Hcalls & _).
    split; [eapply project_total; eauto|].
    intros sub Hsub. apply mapM_outcome_Ok in Hcalls.
    apply list_elem_of_lookup in Hsub as [i Hi].
    destruct (Forall2_lookup_l _ _ _ _ _ Hcalls Hi) as (m & _ & Hm). eauto.
Qed.

(** A node is returned exactly when the derived dictionary exists and the
    node class accepts it with the overrides merged over it. *)
Lemma get_calltree_from_parity_trace_Ok (traces : list ParityTrace.t)
    (root : ParityTrace.t) (root_kwargs n : node) :
  get_calltree_from_parity_trace model_validate traces (Some root) root_kwargs = Ok n <->
  exists computed,
    derived_kwargs model_validate traces root = Ok computed
    /\ model_validate (root_kwargs ∪ computed) = Ok n.
Proof.
  rewrite get_calltree_from_parity_trace_unfold. split.
  - intros H. apply bind_Ok in H as (computed & Hc & H). eauto.
  - intros (computed & -> & H). exact H.
Qed.

(** What the assembler does before the node class is asked: the outcome is
    the validation of the merged dictionary. *)
Lemma get_calltree_from_parity_trace_derived (traces : list ParityTrace.t)
    (root : ParityTrace.t) (root_kwargs computed : node) :
  derived_kwargs model_validate traces root = Ok computed ->
  get_calltree_from_parity_trace model_validate traces (Some root) root_kwargs
    = model_validate (root_kwargs ∪ computed).
Proof. intros H. by rewrite get_calltree_from_parity_trace_unfold, H. Qed.

Lemma derived_failed (traces : list ParityTrace.t) (root : ParityTrace.t)
    (computed : node) :
  derived_kwargs model_validate traces root = Ok computed ->
  computed !! "failed" = Some (PBool (is_not_None (ParityTrace.error root))).
Proof.
  intros H. apply derived_kwargs_Ok in H as (nk & calls & Hp & _ & ->).
  rewrite lookup_insert_ne by done.
  rewrite (project_frame _ _ _ "failed" Hp not_projected_failed).
  by rewrite lookup_insert_eq.
Qed.

Lemma derived_calls (traces : list ParityTrace.t) (root : ParityTrace.t)
    (computed : node) :
  derived_kwargs model_validate traces root = Ok computed ->
  exists kids : list node,
    computed !! "calls" = Some (PList (PNode <$> kids))
    /\ Forall2
         (fun sub kid =>
            get_calltree_from_parity_trace model_validate traces (Some sub) ∅ = Ok kid)
         (children_of traces root) kids.
Proof.
  intros H. apply derived_kwargs_Ok in H as (nk & calls & _ & Hcalls & ->).
  exists calls. split; [by rewrite lookup_insert_eq | by apply mapM_outcome_Ok].
Qed.

(** ** The failed flag *)

(** C1, as the code has it: when the overrides do not set [failed], the
    failed flag that the node is built from is true if and only if the root
    record's error field is present, and so is the flag of the node for a
    node class that stores the flag it is given.  Up to the validation by the
    node class nothing is raised when the root's payload fits its kind and
    its sub-traces assemble. *)
Theorem failed_iff_error_present (traces : list ParityTrace.t)
    (root : ParityTrace.t) (root_kwargs : node) :
  root_kwargs !! "failed" = None ->
  (payload_fits root = true ->
   (forall sub, sub ∈ children_of traces root ->
      exists m, get_calltree_from_parity_trace model_validate traces (Some sub) ∅ = Ok m) ->
   exists computed,
     derived_kwargs model_validate traces root = Ok computed
     /\ get_calltree_from_parity_trace model_validate traces (Some root) root_kwargs
          = model_validate (root_kwargs ∪ computed))
  /\ (forall n,
        get_calltree_from_parity_trace model_validate traces (Some root) root_kwargs = Ok n ->
        exists handed,
          model_validate handed = Ok n
          /\ handed !! "failed" = Some (PBool (is_not_None (ParityTrace.error root)))
          /\ (handed !! "failed" = Some (PBool true) <-> ParityTrace.error root <> None)
          /\ (stores_field model_validate "failed" ->
              n !! "failed" = Some (PBool (is_not_None (ParityTrace.error root)))
              /\ (n !! "failed" = Some (PBool true) <-> ParityTrace.error root <> None))).
Proof.
  intros Hkw. split.
  - intros Hfit Hsubs.
    destruct (proj1 (derived_kwargs_total traces root) (conj Hfit Hsubs)) as [computed Hc].
    exists computed. split; [exact Hc|].
    by apply get_calltree_from_parity_trace_derived.
  - intros n Hn. apply get_calltree_from_parity_trace_Ok in Hn as (computed & Hc & Hn).
    assert (Hflag : (root_kwargs ∪ computed) !! "failed"
                    = Some (PBool (is_not_None (ParityTrace.error root)))).
    { rewrite lookup_union_r by exact Hkw. by apply (derived_failed traces). }
    assert (Hiff : forall d : node,
      d !! "failed" = Some (PBool (is_not_None (ParityTrace.error root))) ->
      (d !! "failed" = Some (PBool true) <-> ParityTrace.error root <> None)).
    { intros d ->. destruct (ParityTrace.error root); simpl; split; done. }
    exists (root_kwargs ∪ computed).
    split; [exact Hn|]. split; [exact Hflag|]. split; [by apply Hiff|].
    intros Hstore. pose proof (Hstore _ _ _ Hn Hflag) as Hnode.
    split; [exact Hnode | by apply Hiff].
Qed.

(** ** Failed calls *)

Lemma project_failed_call (r : ParityTrace.t) (nk nk' : node) :
  call_family (ParityTrace.call_type r) ->
  ParityTrace.result r = None ->
  project r nk = Ok nk' ->
  nk' !! "gas_cost" = nk !! "gas_cost" /\ nk' !! "returndata" = nk !! "returndata".
Proof.
  unfold project. intros Hk Hres. rewrite Hres.
  apply call_family_cases in Hk as [-> | [-> | [-> | ->]]];
    destruct (ParityTrace.action r); simpl;
    try (intros [=]; fail);
    intros [= <-]; rewrite !lookup_insert_ne by done; done.
Qed.

(** C8: for a record of a CALL-family kind with an error and no result, the
    node is built from a dictionary without [gas_cost] and without
    [returndata] whose failed flag is true (the overrides setting none of the
    three); up to the validation by the node class nothing is raised when the
    record's action is a Call Action and its sub-traces assemble. *)
Theorem failed_call_has_no_result_fields (traces : list ParityTrace.t)
    (root : ParityTrace.t) (root_kwargs : node) (e : string) :
  call_family (ParityTrace.call_type root) ->
  ParityTrace.error root = Some e ->
  ParityTrace.result root = None ->
  root_kwargs !! "gas_cost" = None ->
  root_kwargs !! "returndata" = None ->
  root_kwargs !! "failed" = None ->
  ((exists a, ParityTrace.action root = ActCall a) ->
   (forall sub, sub ∈ children_of traces root ->
      exists m, get_calltree_from_parity_trace model_validate traces (Some sub) ∅ = Ok m) ->
   exists computed,
     derived_kwargs model_validate traces root = Ok computed
     /\ get_calltree_from_parity_trace model_validate traces (Some root) root_kwargs
          = model_validate (root_kwargs ∪ computed))
  /\ (forall n,
        get_calltree_from_parity_trace model_validate traces (Some root) root_kwargs = Ok n ->
        exists handed,
          model_validate handed = Ok n
          /\ handed !! "gas_cost" = None
          /\ handed !! "returndata" = None
          /\ handed !! "failed" = Some (PBool true)
          /\ (stores_field model_validate "failed" -> n !! "failed" = Some (PBool true))).
Proof.
  intros Hk Herr Hres Hgas Hret Hfailed. split.
  - intros [a Ha] Hsubs.
    assert (Hfit : payload_fits root = true).
    { unfold payload_fits. rewrite Ha, Hres.
      by apply call_family_cases in Hk as [-> | [-> | [-> | ->]]]. }
    destruct (proj1 (derived_kwargs_total traces root) (conj Hfit Hsubs)) as [computed Hc].
    exists computed. split; [exact Hc|].
    by apply get_calltree_from_parity_trace_derived.
  - intros n Hn. apply get_calltree_from_parity_trace_Ok in Hn as (computed & Hc & Hn).
    pose proof (derived_failed _ _ _ Hc) as Hflag. rewrite Herr in Hflag.
    apply derived_kwargs_Ok in Hc as (nk & calls & Hp & _ & ->).
    destruct (project_failed_call _ _ _ Hk Hres Hp) as [Hg Hr].
    exists (root_kwargs ∪ <["calls" := PList (PNode <$> calls)]> nk).
    split; [exact Hn|].
    assert (Hf : (root_kwargs ∪ <["calls" := PList (PNode <$> calls)]> nk) !! "failed"
                 = Some (PBool true)).
    { by rewrite lookup_union_r by exact Hfailed. }
    split; [|split; [|split; [exact Hf|]]].
    + rewrite lookup_union_r by assumption.
      by rewrite lookup_insert_ne, Hg, !lookup_insert_ne.
    + rewrite lookup_union_r by assumption.
      by rewrite lookup_insert_ne, Hr, !lookup_insert_ne.
    + intros Hstore. exact (Hstore _ _ _ Hn Hf).
Qed.

(** ** Overrides *)

(** C9: the overrides are merged last.  The node is built from the derived
    dictionary, which does not depend on the overrides, with the overrides
    merged over it: every field present in the overrides has the override's
    value in the dictionary handed to the node class, whatever was derived,
    and every other field keeps its derived value; a node class that stores a
    field passes this on to the node. *)
Theorem overrides_applied_last (traces : list ParityTrace.t)
    (root : option ParityTrace.t) (root_kwargs n : node) :
  get_calltree_from_parity_trace model_validate traces root root_kwargs = Ok n ->
  exists (r : ParityTrace.t) (computed : node),
    root_or_first traces root = Ok r
    /\ derived_kwargs model_validate traces r = Ok computed
    /\ model_validate (root_kwargs ∪ computed) = Ok n
    /\ get_calltree_from_parity_trace model_validate traces root ∅
         = model_validate computed
    /\ (forall k v, root_kwargs !! k = Some v -> (root_kwargs ∪ computed) !! k = Some v)
    /\ (forall k, root_kwargs !! k = None ->
          (root_kwargs ∪ computed) !! k = computed !! k)
    /\ (forall k v, stores_field model_validate k ->
          root_kwargs !! k = Some v -> n !! k = Some v)
    /\ (forall k v, stores_field model_validate k ->
          root_kwargs !! k = None -> computed !! k = Some v -> n !! k = Some v).
Proof.
  intros Hn.
  assert (Hr : exists r, root_or_first traces root = Ok r
                 /\ forall kw, get_calltree_from_parity_trace model_validate traces root kw
                      = get_calltree_from_parity_trace model_validate traces (Some r) kw).
  { unfold get_calltree_from_parity_trace in *.
    destruct (root_or_first traces root) as [r|err]; [|discriminate]. by exists r. }
  destruct Hr as (r & Hr & Heq). rewrite Heq in Hn.
  apply get_calltree_from_parity_trace_Ok in Hn as (computed & Hc & Hn).
  exists r, computed.
  split; [exact Hr|]. split; [exact Hc|]. split; [exact Hn|].
  split.
  { rewrite Heq, (get_calltree_from_parity_trace_derived _ _ _ _ Hc).
    by rewrite (left_id_L ∅ (∪)). }
  split; [intros k v Hk; by apply lookup_union_Some_l|].
  split; [intros k Hk; by apply lookup_union_r|].
  split.
  - intros k v Hstore Hk. apply (Hstore _ _ _ Hn). by apply lookup_union_Some_l.
  - intros k v Hstore Hk Hck. apply (Hstore _ _ _ Hn). by rewrite lookup_union_r.
Qed.

(** ** Children *)

(** C2: the children that the node is built from are the assembled
    sub-traces of the root, where the sub-traces are exactly the records of
    the set whose address is one longer than the root's and equals it once the
    last element is dropped, taken in the order of the record set whatever the
    numeric value of the last element. *)
Theorem children_are_subtraces_in_set_order (traces : list ParityTrace.t)
    (root : ParityTrace.t) (root_kwargs : node) :
  root_kwargs !! "calls" = None ->
  (payload_fits root = true ->
   (forall sub, sub ∈ children_of traces root ->
      exists m, get_calltree_from_parity_trace model_validate traces (Some sub) ∅ = Ok m) ->
   exists computed,
     derived_kwargs model_validate traces root = Ok computed
     /\ get_calltree_from_parity_trace model_validate traces (Some root) root_kwargs
          = model_validate (root_kwargs ∪ computed))
  /\ (forall n,
        get_calltree_from_parity_trace model_validate traces (Some root) root_kwargs = Ok n ->
        exists (handed : node) (kids : list node),
          model_validate handed = Ok n
          /\ handed !! "calls" = Some (PList (PNode <$> kids))
          /\ Forall2
               (fun sub kid =>
                  get_calltree_from_parity_trace model_validate traces (Some sub) ∅ = Ok kid)
               (children_of traces root) kids)
  /\ (forall sub,
        sub ∈ children_of traces root <->
        sub ∈ traces
        /\ length (ParityTrace.trace_address sub)
             = (length (ParityTrace.trace_address root) + 1)%nat
        /\ drop_last (ParityTrace.trace_address sub) = ParityTrace.trace_address root)
  /\ (forall sub,
        sub ∈ children_of traces root <->
        sub ∈ traces
        /\ exists i, ParityTrace.trace_address sub = ParityTrace.trace_address root ++ [i])
  /\ (forall before after, traces = before ++ after ->
        children_of traces root = children_of before root ++ children_of after root)
  /\ (forall a b i j,
        ParityTrace.trace_address a = ParityTrace.trace_address root ++ [i] ->
        ParityTrace.trace_address b = ParityTrace.trace_address root ++ [j] ->
        children_of [a; b] root = [a; b]).
Proof.
  intros Hkw. split.
  { intros Hfit Hsubs.
    destruct (proj1 (derived_kwargs_total traces root) (conj Hfit Hsubs)) as [computed Hc].
    exists computed. split; [exact Hc|].
    by apply get_calltree_from_parity_trace_derived. }
  split.
  { intros n Hn. apply get_calltree_from_parity_trace_Ok in Hn as (computed & Hc & Hn).
    destruct (derived_calls _ _ _ Hc) as (kids & Hcalls & Hkids).
    exists (root_kwargs ∪ computed), kids.
    split; [exact Hn|]. split; [|exact Hkids].
    by rewrite lookup_union_r by exact Hkw. }
  split; [intros sub; rewrite children_of_spec; unfold subtrace_of; tauto|].
  split; [intros sub; rewrite children_of_spec, subtrace_of_snoc; tauto|].
  split; [intros before after ->; apply children_of_app|].
  intros a b i j Ha Hb. rewrite !children_of_cons.
  rewrite !decide_True by (apply subtrace_of_snoc; eauto).
  reflexivity.
Qed.

(** ** Records that share an address *)

(** C10: two records with the same address that are sub-traces of a root are
    both kept, at their places in record-set order, and the same records are
    selected as the sub-traces of either.  There is no check for duplicates:
    when the root's payload fits its kind and each sub-trace, the two
    duplicates among them, assembles on its own, the children that the node
    is built from hold one subtree for each duplicate, the two subtrees are
    built from the same children, and the outcome is what the node class
    makes of that dictionary. *)
Theorem duplicate_addresses_kept (traces l1 l2 l3 : list ParityTrace.t)
    (root a b : ParityTrace.t) (root_kwargs : node) :
  traces = l1 ++ a :: l2 ++ b :: l3 ->
  ParityTrace.trace_address a = ParityTrace.trace_address b ->
  subtrace_of root a ->
  children_of traces root
    = children_of l1 root ++ a :: children_of l2 root ++ b :: children_of l3 root
  /\ children_of traces a = children_of traces b
  /\ (payload_fits root = true ->
      (forall sub, sub ∈ children_of traces root ->
         exists m,
           get_calltree_from_parity_trace model_validate traces (Some sub) ∅ = Ok m) ->
      exists (computed : node) (k1 k2 k3 : list node) (na nb da db : node),
        derived_kwargs model_validate traces root = Ok computed
        /\ get_calltree_from_parity_trace model_validate traces (Some root) root_kwargs
             = model_validate (root_kwargs ∪ computed)
        /\ computed !! "calls" = Some (PList (PNode <$> (k1 ++ na :: k2 ++ nb :: k3)))
        /\ (root_kwargs !! "calls" = None ->
            (root_kwargs ∪ computed) !! "calls"
              = Some (PList (PNode <$> (k1 ++ na :: k2 ++ nb :: k3))))
        /\ length k1 = length (children_of l1 root)
        /\ length k2 = length (children_of l2 root)
        /\ length k3 = length (children_of l3 root)
        /\ get_calltree_from_parity_trace model_validate traces (Some a) ∅ = Ok na
        /\ get_calltree_from_parity_trace model_validate traces (Some b) ∅ = Ok nb
        /\ derived_kwargs model_validate traces a = Ok da
        /\ derived_kwargs model_validate traces b = Ok db
        /\ model_validate da = Ok na
        /\ model_validate db = Ok nb
        /\ da !! "calls" = db !! "calls").
Proof.
  intros Htr Hab Ha.
  assert (Hb : subtrace_of root b).
  { unfold subtrace_of in *. by rewrite <- Hab. }
  assert (Hch : children_of traces root
    = children_of l1 root ++ a :: children_of l2 root ++ b :: children_of l3 root).
  { rewrite Htr, children_of_app, children_of_cons, decide_True by exact Ha.
    by rewrite children_of_app, children_of_cons, decide_True by exact Hb. }
  split; [exact Hch|].
  split; [by apply children_of_same_address|].
  intros Hroot Hsubs.
  destruct (proj1 (derived_kwargs_total traces root) (conj Hroot Hsubs)) as [computed Hc].
  destruct (derived_calls _ _ _ Hc) as (kids & Hcalls & Hkids).
  rewrite Hch in Hkids.
  apply Forall2_app_inv_l in Hkids as (k1 & rest & H1 & Hrest & ->).
  apply Forall2_cons_inv_l in Hrest as (na & rest' & Hna & Hrest & ->).
  apply Forall2_app_inv_l in Hrest as (k2 & rest & H2 & Hrest & ->).
  apply Forall2_cons_inv_l in Hrest as (nb & k3 & Hnb & H3 & ->).
  pose proof Hna as Hna'. pose proof Hnb as Hnb'.
  apply get_calltree_from_parity_trace_Ok in Hna' as (da & Hda & Hva).
  apply get_calltree_from_parity_trace_Ok in Hnb' as (db & Hdb & Hvb).
  rewrite (left_id_L ∅ (∪)) in Hva, Hvb.
  exists computed, k1, k2, k3, na, nb, da, db.
  split; [exact Hc|].
  split; [by apply get_calltree_from_parity_trace_derived|].
  split; [exact Hcalls|].
  split; [intros Hkw; by rewrite lookup_union_r|].
  split; [symmetry; by eapply Forall2_length|].
  split; [symmetry; by eapply Forall2_length|].
  split; [symmetry; by eapply Forall2_length|].
  split; [exact Hna|]. split; [exact Hnb|].
  split; [exact Hda|]. split; [exact Hdb|].
  split; [exact Hva|]. split; [exact Hvb|].
  destruct (derived_calls _ _ _ Hda) as (ka & -> & Hka).
  destruct (derived_calls _ _ _ Hdb) as (kb & -> & Hkb).
  rewrite (children_of_same_address traces a b Hab) in Hka.
  apply mapM_outcome_Ok in Hka, Hkb. rewrite Hka in Hkb.
  by injection Hkb as ->.
Qed.

(** * Further properties of the assembler *)

(** ** What the projection stores *)

Lemma project_create (r : ParityTrace.t) (nk : node) (a : CreateAction.t) :
  ParityTrace.call_type r = CREATE ->
  ParityTrace.action r = ActCreate a ->
  project r nk =
    let stored : node :=
      <["calldata" := PStr (CreateAction.init a)]>
        (<["gas_limit" := PInt (CreateAction.gas a)]>
           (<["value" := PInt (CreateAction.value a)]> nk)) in
    match ParityTrace.result r with
    | None => Ok stored
    | Some (ResCreate c) =>
        Ok (<["address" := PStr (CreateResult.address c)]>
              (<["gas_cost" := PInt (CreateResult.gas_used c)]> stored))
    | Some (ResCall _) => Raise AttributeError
    end.
Proof.
  intros Hk Ha. unfold project. rewrite Hk, Ha.
  by destruct (ParityTrace.result r) as [[c|c]|].
Qed.

Lemma project_call (r : ParityTrace.t) (nk : node) (a : CallAction.t) :
  call_family (ParityTrace.call_type r) ->
  ParityTrace.action r = ActCall a ->
  project r nk =
    let stored : node :=
      <["calldata" := of_optional_str (CallAction.input a)]>
        (<["gas_limit" := PInt (CallAction.gas a)]>
           (<["value" := PInt (CallAction.value a)]>
              (<["address" := of_optional_str (CallAction.receiver a)]> nk))) in
    match ParityTrace.result r with
    | None => Ok stored
    | Some (ResCall c) =>
        Ok (<["returndata" := PStr (CallResult.output c)]>
              (<["gas_cost" := PInt (CallResult.gas_used c)]> stored))
    | Some (ResCreate _) => Raise AttributeError
    end.
Proof.
  intros Hk Ha. unfold project. rewrite Ha.
  apply call_family_cases in Hk as [-> | [-> | [-> | ->]]];
    by destruct (ParityTrace.result r) as [[c|c]|].
Qed.

Lemma project_selfdestruct (r : ParityTrace.t) (nk : node) (d : SelfDestructAction.t) :
  ParityTrace.call_type r = SELFDESTRUCT ->
  ParityTrace.action r = ActSelfDestruct d ->
  project r nk = Ok (<["address" := PStr (SelfDestructAction.address d)]> nk).
Proof. intros Hk Ha. unfold project. by rewrite Hk, Ha. Qed.

Lemma project_other (r : ParityTrace.t) (nk : node) (tag : string) :
  ParityTrace.call_type r = OTHER tag -> project r nk = Ok nk.
Proof. intros Hk. unfold project. by rewrite Hk. Qed.

(** The dictionary that the projection starts from. *)
Lemma base_kwargs_lookup (r : ParityTrace.t) (k : string) :
  k ∈ projected_fields ->
  (<["failed" := PBool (is_not_None (ParityTrace.error r))]>
     (<["call_type" := PEnum (ParityTrace.call_type r)]> (∅ : node))) !! k = None.
Proof.
  unfold projected_fields. rewrite !elem_of_cons, elem_of_nil.
  intros [-> | [-> | [-> | [-> | [-> | [-> | []]]]]]]; reflexivity.
Qed.

(** Reading one field of a dictionary built by a chain of updates. *)
Ltac read_field :=
  repeat first
    [ rewrite lookup_insert_eq
    | rewrite lookup_insert_ne by done
    | rewrite lookup_empty ].

(** Membership in the list of projected fields. *)
Ltac projected := unfold projected_fields; rewrite !elem_of_cons; tauto.

(** Reading a projected field of the dictionary handed to the node class
    when the overrides keep the projection. *)
Lemma handed_projected_field (root_kwargs nk : node) (calls : list node) (k : string) :
  keeps_projection root_kwargs -> k ∈ projected_fields ->
  (root_kwargs ∪ <["calls" := PList (PNode <$> calls)]> nk) !! k = nk !! k.
Proof.
  intros Hkw Hk. rewrite lookup_union_r by (by apply Hkw).
  apply lookup_insert_ne. intros <-. revert Hk.
  unfold projected_fields. rewrite !elem_of_cons, elem_of_nil.
  intros [?|[?|[?|[?|[?|[?|[]]]]]]]; discriminate.
Qed.

(** Up to the validation by the node class, nothing is raised when the
    root's payload fits its kind and its sub-traces assemble. *)
Lemma returns_up_to_validation (traces : list ParityTrace.t) (root : ParityTrace.t)
    (root_kwargs : node) :
  payload_fits root = true ->
  (forall sub, sub ∈ children_of traces root ->
     exists m, get_calltree_from_parity_trace model_validate traces (Some sub) ∅ = Ok m) ->
  exists computed,
    derived_kwargs model_validate traces root = Ok computed
    /\ get_calltree_from_parity_trace model_validate traces (Some root) root_kwargs
         = model_validate (root_kwargs ∪ computed).
Proof.
  intros Hfit Hsubs.
  destruct (proj1 (derived_kwargs_total traces root) (conj Hfit Hsubs)) as [computed Hc].
  exists computed. split; [exact Hc|].
  by apply get_calltree_from_parity_trace_derived.
Qed.

(** X1: for a CREATE record with a Create Action the node is built from a
    dictionary that carries the action's value, gas and init code; with a
    Create Result it also carries the result's gas used and address, without
    a result it has neither [gas_cost] nor [address]; it never has
    [returndata]. *)
Theorem create_node_fields (traces : list ParityTrace.t) (root : ParityTrace.t)
    (root_kwargs : node) (a : CreateAction.t) :
  ParityTrace.call_type root = CREATE ->
  ParityTrace.action root = ActCreate a ->
  keeps_projection root_kwargs ->
  (payload_fits root = true ->
   (forall sub, sub ∈ children_of traces root ->
      exists m, get_calltree_from_parity_trace model_validate traces (Some sub) ∅ = Ok m) ->
   exists computed,
     derived_kwargs model_validate traces root = Ok computed
     /\ get_calltree_from_parity_trace model_validate traces (Some root) root_kwargs
          = model_validate (root_kwargs ∪ computed))
  /\ (forall n,
        get_calltree_from_parity_trace model_validate traces (Some root) root_kwargs = Ok n ->
        exists handed,
          model_validate handed = Ok n
          /\ handed !! "value" = Some (PInt (CreateAction.value a))
          /\ handed !! "gas_limit" = Some (PInt (CreateAction.gas a))
          /\ handed !! "calldata" = Some (PStr (CreateAction.init a))
          /\ handed !! "returndata" = None
          /\ match ParityTrace.result root with
             | Some (ResCreate c) =>
                 handed !! "gas_cost" = Some (PInt (CreateResult.gas_used c))
                 /\ handed !! "address" = Some (PStr (CreateResult.address c))
             | _ => handed !! "gas_cost" = None /\ handed !! "address" = None
             end).
Proof.
  intros Hk Ha Hkw. split; [apply returns_up_to_validation|].
  intros n Hn. apply get_calltree_from_parity_trace_Ok in Hn as (computed & Hc & Hn).
  apply derived_kwargs_Ok in Hc as (nk & calls & Hp & _ & ->).
  eexists. split; [exact Hn|].
  rewrite (project_create _ _ a Hk Ha) in Hp. simpl in Hp.
  rewrite !(handed_projected_field root_kwargs nk calls) by (done || projected).
  destruct (ParityTrace.result root) as [[c|c]|]; [discriminate | |];
    injection Hp as <-; read_field;
    rewrite ?(base_kwargs_lookup root) by projected; done.
Qed.

(** X2: for a CALL-family record with a Call Action and a Call Result the
    node is built from a dictionary whose address is the action's receiver
    ([None] when there is no receiver: the key is present all the same),
    whose value, gas limit and call data come from the action and whose gas
    cost and return data come from the result. *)
Theorem call_node_fields (traces : list ParityTrace.t) (root : ParityTrace.t)
    (root_kwargs : node) (a : CallAction.t) (c : CallResult.t) :
  call_family (ParityTrace.call_type root) ->
  ParityTrace.action root = ActCall a ->
  ParityTrace.result root = Some (ResCall c) ->
  keeps_projection root_kwargs ->
  ((forall sub, sub ∈ children_of traces root ->
      exists m, get_calltree_from_parity_trace model_validate traces (Some sub) ∅ = Ok m) ->
   exists computed,
     derived_kwargs model_validate traces root = Ok computed
     /\ get_calltree_from_parity_trace model_validate traces (Some root) root_kwargs
          = model_validate (root_kwargs ∪ computed)
     /\ (root_kwargs ∪ computed) !! "address"
          = Some (of_optional_str (CallAction.receiver a)))
  /\ (forall n,
        get_calltree_from_parity_trace model_validate traces (Some root) root_kwargs = Ok n ->
        exists handed,
          model_validate handed = Ok n
          /\ handed !! "address" = Some (of_optional_str (CallAction.receiver a))
          /\ handed !! "value" = Some (PInt (CallAction.value a))
          /\ handed !! "gas_limit" = Some (PInt (CallAction.gas a))
          /\ handed !! "calldata" = Some (of_optional_str (CallAction.input a))
          /\ handed !! "gas_cost" = Some (PInt (CallResult.gas_used c))
          /\ handed !! "returndata" = Some (PStr (CallResult.output c))).
Proof.
  intros Hk Ha Hres Hkw.
  assert (Hfields : forall computed,
    derived_kwargs model_validate traces root = Ok computed ->
    (root_kwargs ∪ computed) !! "address" = Some (of_optional_str (CallAction.receiver a))
    /\ (root_kwargs ∪ computed) !! "value" = Some (PInt (CallAction.value a))
    /\ (root_kwargs ∪ computed) !! "gas_limit" = Some (PInt (CallAction.gas a))
    /\ (root_kwargs ∪ computed) !! "calldata" = Some (of_optional_str (CallAction.input a))
    /\ (root_kwargs ∪ computed) !! "gas_cost" = Some (PInt (CallResult.gas_used c))
    /\ (root_kwargs ∪ computed) !! "returndata" = Some (PStr (CallResult.output c))).
  { intros computed Hc. apply derived_kwargs_Ok in Hc as (nk & calls & Hp & _ & ->).
    rewrite (project_call _ _ a Hk Ha), Hres in Hp. simpl in Hp.
    rewrite !(handed_projected_field root_kwargs nk calls) by (done || projected).
    injection Hp as <-. read_field. done. }
  split.
  - intros Hsubs.
    destruct (returns_up_to_validation traces root root_kwargs) as (computed & Hc & Heq);
      [|exact Hsubs|].
    + unfold payload_fits. rewrite Ha, Hres.
      by apply call_family_cases in Hk as [-> | [-> | [-> | ->]]].
    + exists computed. split; [exact Hc|]. split; [exact Heq|].
      by destruct (Hfields computed Hc) as (? & _).
  - intros n Hn. apply get_calltree_from_parity_trace_Ok in Hn as (computed & Hc & Hn).
    exists (root_kwargs ∪ computed). split; [exact Hn | by apply Hfields].
Qed.

(** X3: for a SELFDESTRUCT record with a Selfdestruct Action the node is
    built from a dictionary whose address is the action's address and which
    has none of the other projected fields; the record's result and the
    action's balance are not consulted. *)
Theorem selfdestruct_node_fields (traces : list ParityTrace.t) (root : ParityTrace.t)
    (root_kwargs : node) (d : SelfDestructAction.t) :
  ParityTrace.call_type root = SELFDESTRUCT ->
  ParityTrace.action root = ActSelfDestruct d ->
  keeps_projection root_kwargs ->
  ((forall sub, sub ∈ children_of traces root ->
      exists m, get_calltree_from_parity_trace model_validate traces (Some sub) ∅ = Ok m) ->
   exists computed,
     derived_kwargs model_validate traces root = Ok computed
     /\ get_calltree_from_parity_trace model_validate traces (Some root) root_kwargs
          = model_validate (root_kwargs ∪ computed))
  /\ (forall n,
        get_calltree_from_parity_trace model_validate traces (Some root) root_kwargs = Ok n ->
        exists handed,
          model_validate handed = Ok n
          /\ handed !! "address" = Some (PStr (SelfDestructAction.address d))
          /\ forall k, k ∈ projected_fields -> k <> "address" -> handed !! k = None).
Proof.
  intros Hk Ha Hkw. split.
  - apply returns_up_to_validation. unfold payload_fits. by rewrite Hk, Ha.
  - intros n Hn. apply get_calltree_from_parity_trace_Ok in Hn as (computed & Hc & Hn).
    apply derived_kwargs_Ok in Hc as (nk & calls & Hp & _ & ->).
    eexists. split; [exact Hn|].
    rewrite (project_selfdestruct _ _ d Hk Ha) in Hp. injection Hp as <-.
    split.
    + rewrite handed_projected_field by (done || projected). by read_field.
    + intros k Hin Hne. rewrite handed_projected_field by done.
      rewrite lookup_insert_ne by done. by apply base_kwargs_lookup.
Qed.

(** ** The set of fields handed to the node class *)

Lemma project_dom (r : ParityTrace.t) (nk nk' : node) :
  project r nk = Ok nk' -> dom nk' = fields_of r ∪ dom nk.
Proof.
  unfold project, fields_of.
  destruct (ParityTrace.call_type r), (ParityTrace.action r),
    (ParityTrace.result r) as [[c|c]|]; simpl; intros [= <-];
    rewrite ?dom_insert_L; set_solver.
Qed.

(** X4: the keys of the dictionary that the node is built from are the
    overridden ones, the three base fields [call_type], [failed] and [calls],
    and the fields that the record's kind projects, and no others; a record of
    a kind outside the six that the assembler names contributes no key. *)
Theorem node_field_set (traces : list ParityTrace.t) (root : ParityTrace.t)
    (root_kwargs n : node) :
  get_calltree_from_parity_trace model_validate traces (Some root) root_kwargs = Ok n ->
  exists handed,
    model_validate handed = Ok n
    /\ dom handed = dom root_kwargs ∪ base_fields ∪ fields_of root
    /\ (forall tag, ParityTrace.call_type root = OTHER tag ->
          dom handed = dom root_kwargs ∪ base_fields)
    /\ (forall k, k ∈ base_fields -> is_Some (handed !! k)).
Proof.
  intros Hn. apply get_calltree_from_parity_trace_Ok in Hn as (computed & Hc & Hn).
  apply derived_kwargs_Ok in Hc as (nk & calls & Hp & _ & ->).
  apply project_dom in Hp.
  assert (Hdom : dom (root_kwargs ∪ <["calls" := PList (PNode <$> calls)]> nk)
                 = dom root_kwargs ∪ base_fields ∪ fields_of root).
  { rewrite dom_union_L, dom_insert_L, Hp, !dom_insert_L, dom_empty_L.
    unfold base_fields. set_solver. }
  eexists. split; [exact Hn|]. split; [exact Hdom|]. split.
  - intros tag Htag. rewrite Hdom. unfold fields_of. rewrite Htag. set_solver.
  - intros k Hk. apply elem_of_dom. rewrite Hdom. set_solver.
Qed.

(** ** Exceptions of the assembler *)

(** With a sufficient budget an exception of the assembler is an
    [AttributeError] of the projection or comes from the node class. *)
Lemma calltree_raises (traces : list ParityTrace.t) (b : nat) :
  forall (root : ParityTrace.t) (root_kwargs : node) (e : exn),
    (max_depth traces - length (ParityTrace.trace_address root) < b)%nat ->
    calltree model_validate b traces root root_kwargs = Raise e ->
    e = AttributeError \/ exists handed, model_validate handed = Raise e.
Proof.
  induction b as [|b IH]; intros root kw e Hb; [lia|]. simpl.
  destruct (project root _) as [nk|e'] eqn:Hp; simpl.
  - destruct (mapM _ (children_of traces root)) as [ys|e'] eqn:Hm; simpl.
    + intros H. right. eauto.
    + intros [= ->]. apply mapM_outcome_Raise in Hm as (sub & Hsub & Hraise).
      apply children_of_deeper in Hsub as [Hlen Hmax].
      apply IH in Hraise; [exact Hraise | lia].
  - intros [= ->]. left. by apply project_raises in Hp.
Qed.

(** The depth budget is not what stops an assembly: its exhaustion is
    reported only if the node class itself reports it. *)
Lemma calltree_budget_enough (traces : list ParityTrace.t) (b : nat)
    (root : ParityTrace.t) (root_kwargs : node) :
  (forall handed, model_validate handed <> Raise RecursionBudget) ->
  (max_depth traces - length (ParityTrace.trace_address root) < b)%nat ->
  calltree model_validate b traces root root_kwargs <> Raise RecursionBudget.
Proof.
  intros Hmv Hb H. apply calltree_raises in H as [H | [handed H]]; [done | | exact Hb].
  by apply Hmv in H.
Qed.

Lemma get_calltree_from_parity_trace_raises (traces : list ParityTrace.t)
    (root : ParityTrace.t) (root_kwargs : node) (e : exn) :
  get_calltree_from_parity_trace model_validate traces (Some root) root_kwargs = Raise e ->
  e = AttributeError \/ exists handed, model_validate handed = Raise e.
Proof.
  rewrite get_calltree_from_parity_trace_Some. apply calltree_raises. lia.
Qed.

(** X5: a record whose payload class does not fit its kind (the casts do
    nothing at run time) makes the assembly rooted at it raise
    [AttributeError], whatever the record set and the overrides are. *)
Theorem payload_mismatch_raises (traces : list ParityTrace.t) (root : ParityTrace.t)
    (root_kwargs : node) :
  payload_fits root = false ->
  get_calltree_from_parity_trace model_validate traces (Some root) root_kwargs
    = Raise AttributeError.
Proof.
  intros Hfit. rewrite get_calltree_from_parity_trace_unfold. unfold derived_kwargs.
  by rewrite (proj1 (project_mismatch root _) Hfit).
Qed.

(** X6: with no root and an empty record set the assembler raises
    [IndexError]; an exception of the assembler is that [IndexError], an
    [AttributeError] of a record whose payload does not fit its kind, or an
    exception raised by the node class; a node is returned exactly when the
    root's payload fits its kind, every sub-trace of the root assembles and
    the node class accepts the merged dictionary. *)
Theorem assembly_outcomes (traces : list ParityTrace.t) (root : option ParityTrace.t)
    (root_kwargs : node) :
  (root = None -> traces = [] ->
   get_calltree_from_parity_trace model_validate traces root root_kwargs = Raise IndexError)
  /\ (forall e,
        get_calltree_from_parity_trace model_validate traces root root_kwargs = Raise e ->
        (e = IndexError /\ root = None /\ traces = [])
        \/ e = AttributeError
        \/ exists handed, model_validate handed = Raise e)
  /\ (forall r,
        (exists computed, derived_kwargs model_validate traces r = Ok computed)
        <-> payload_fits r = true
            /\ forall sub, sub ∈ children_of traces r ->
                 exists m,
                   get_calltree_from_parity_trace model_validate traces (Some sub) ∅ = Ok m)
  /\ (forall r n,
        get_calltree_from_parity_trace model_validate traces (Some r) root_kwargs = Ok n
        <-> exists computed,
              derived_kwargs model_validate traces r = Ok computed
              /\ model_validate (root_kwargs ∪ computed) = Ok n).
Proof.
  split; [by intros -> ->|]. split; [|split].
  - intros e. destruct root as [r|].
    + intros H. right. by apply get_calltree_from_parity_trace_raises in H.
    + destruct traces as [|first rest].
      * intros [= <-]. by left.
      * rewrite (get_calltree_from_parity_trace_default _ first rest) by done.
        intros H. right. by apply get_calltree_from_parity_trace_raises in H.
  - intros r. symmetry. apply derived_kwargs_total.
  - intros r n. apply get_calltree_from_parity_trace_Ok.
Qed.

(** ** Leaves, subtrees and unread fields *)

(** X7: for a root that no record of the set extends by one index (the empty
    record set and a root deeper than every record are cases) the derived
    dictionary exists as soon as the root's own payload fits its kind, the
    other records are not looked at, its [calls] is the empty list, and the
    outcome is what the node class makes of it with the overrides merged. *)
Theorem root_without_subtraces_is_leaf (traces : list ParityTrace.t)
    (root : ParityTrace.t) (root_kwargs : node) :
  (forall r, r ∈ traces ->
     forall i, ParityTrace.trace_address r <> ParityTrace.trace_address root ++ [i]) ->
  payload_fits root = true ->
  exists computed,
    derived_kwargs model_validate traces root = Ok computed
    /\ computed !! "calls" = Some (PList [])
    /\ (root_kwargs !! "calls" = None ->
        (root_kwargs ∪ computed) !! "calls" = Some (PList []))
    /\ get_calltree_from_parity_trace model_validate traces (Some root) root_kwargs
         = model_validate (root_kwargs ∪ computed).
Proof.
  intros Hno Hfit. apply children_of_nil_iff in Hno.
  apply (project_total root
           (<["failed" := PBool (is_not_None (ParityTrace.error root))]>
              (<["call_type" := PEnum (ParityTrace.call_type root)]> ∅)))
    in Hfit as [nk Hnk].
  assert (Hc : derived_kwargs model_validate traces root = Ok (<["calls" := PList []]> nk)).
  { apply derived_kwargs_Ok. exists nk, []. rewrite Hno. by repeat split. }
  exists (<["calls" := PList []]> nk).
  split; [exact Hc|]. split; [by rewrite lookup_insert_eq|].
  split; [intros Hkw; rewrite lookup_union_r by exact Hkw; by rewrite lookup_insert_eq|].
  by apply get_calltree_from_parity_trace_derived.
Qed.

Lemma max_depth_filter (P : ParityTrace.t -> Prop) `{!forall r, Decision (P r)}
    (traces : list ParityTrace.t) :
  (max_depth (filter P traces) <= max_depth traces)%nat.
Proof.
  induction traces as [|t traces IH]; [done|].
  rewrite filter_cons. destruct (decide (P t)); simpl; lia.
Qed.

Lemma subtrace_below (root r sub : ParityTrace.t) :
  below root r -> subtrace_of r sub -> below root sub.
Proof.
  unfold below. intros Hr Hsub. apply subtrace_of_snoc in Hsub as [i ->].
  by apply prefix_app_r.
Qed.

Lemma calltree_below (traces : list ParityTrace.t) (root : ParityTrace.t) (b : nat) :
  forall (r : ParityTrace.t) (kw : node),
    below root r ->
    calltree model_validate b (filter (below root) traces) r kw
      = calltree model_validate b traces r kw.
Proof.
  induction b as [|b IH]; intros r kw Hr; [reflexivity|]. simpl.
  destruct (project r _) as [nk|e]; [simpl | reflexivity].
  assert (Hch : children_of (filter (below root) traces) r = children_of traces r).
  { unfold children_of. apply list_filter_filter_l.
    intros sub Hsub. by apply (subtrace_below root r). }
  rewrite Hch.
  rewrite (mapM_outcome_ext
             (fun sub => calltree model_validate b (filter (below root) traces) sub ∅)
             (fun sub => calltree model_validate b traces sub ∅)); [reflexivity|].
  intros sub Hsub. apply IH. apply children_of_spec in Hsub as [Hsub _].
  by apply (subtrace_below root r).
Qed.

(** X8: the tree below a root depends only on the records whose address
    extends the root's address: dropping every other record from the set
    (other branches, records above the root, records the root cannot reach)
    changes nothing. *)
Theorem assembly_reads_only_records_below (traces : list ParityTrace.t)
    (root : ParityTrace.t) (root_kwargs : node) :
  get_calltree_from_parity_trace model_validate (filter (below root) traces)
      (Some root) root_kwargs
    = get_calltree_from_parity_trace model_validate traces (Some root) root_kwargs.
Proof.
  rewrite !get_calltree_from_parity_trace_Some.
  pose proof (max_depth_filter (below root) traces) as Hle.
  rewrite (calltree_budget_irrelevant (filter (below root) traces)
             (S (max_depth (filter (below root) traces))) (S (max_depth traces)))
    by lia.
  apply calltree_below. unfold below. reflexivity.
Qed.

Lemma project_keeps_read_fields (g : ParityTrace.t -> ParityTrace.t)
    (r : ParityTrace.t) (nk : node) :
  keeps_read_fields g -> project (g r) nk = project r nk.
Proof.
  intros Hg. destruct (Hg r) as (_ & Ha & Hk & Hres & _).
  unfold project. by rewrite Ha, Hk, Hres.
Qed.

Lemma children_of_keeps_read_fields (g : ParityTrace.t -> ParityTrace.t)
    (traces : list ParityTrace.t) (root : ParityTrace.t) :
  keeps_read_fields g ->
  children_of (g <$> traces) (g root) = g <$> children_of traces root.
Proof.
  intros Hg. induction traces as [|t traces IH]; [reflexivity|].
  rewrite fmap_cons, !children_of_cons, IH.
  assert (Hiff : subtrace_of (g root) (g t) <-> subtrace_of root t).
  { unfold subtrace_of.
    destruct (Hg t) as (_ & _ & _ & _ & ->), (Hg root) as (_ & _ & _ & _ & ->). done. }
  destruct (decide (subtrace_of root t)) as [Hs|Hs].
  - by rewrite decide_True by (by apply Hiff).
  - by rewrite decide_False by (by rewrite Hiff).
Qed.

Lemma max_depth_keeps_read_fields (g : ParityTrace.t -> ParityTrace.t)
    (traces : list ParityTrace.t) :
  keeps_read_fields g -> max_depth (g <$> traces) = max_depth traces.
Proof.
  intros Hg. induction traces as [|t traces IH]; [reflexivity|].
  rewrite fmap_cons. unfold max_depth in *. rewrite !foldr_cons.
  destruct (Hg t) as (_ & _ & _ & _ & ->). by rewrite IH.
Qed.

Lemma calltree_keeps_read_fields (g : ParityTrace.t -> ParityTrace.t)
    (traces : list ParityTrace.t) (b : nat) :
  keeps_read_fields g ->
  forall (root : ParityTrace.t) (kw : node),
    calltree model_validate b (g <$> traces) (g root) kw
      = calltree model_validate b traces root kw.
Proof.
  intros Hg. induction b as [|b IH]; intros root kw; [reflexivity|]. simpl.
  destruct (Hg root) as (-> & _ & -> & _ & _).
  rewrite (project_keeps_read_fields g root _ Hg).
  destruct (project root _) as [nk|e]; [simpl | reflexivity].
  rewrite (children_of_keeps_read_fields g traces root Hg), mapM_outcome_fmap.
  rewrite (mapM_outcome_ext (fun x => calltree model_validate b (g <$> traces) (g x) ∅)
             (fun x => calltree model_validate b traces x ∅)); [reflexivity|].
  intros sub _. apply IH.
Qed.

(** X9: the assembler reads only a record's error, action, kind, result and
    address: changing the declared sub-trace count, the block hash and the
    transaction hash of the records in any way gives the same tree. *)
Theorem assembly_ignores_unread_fields (g : ParityTrace.t -> ParityTrace.t)
    (traces : list ParityTrace.t) (root : option ParityTrace.t) (root_kwargs : node) :
  keeps_read_fields g ->
  get_calltree_from_parity_trace model_validate (g <$> traces) (g <$> root) root_kwargs
    = get_calltree_from_parity_trace model_validate traces root root_kwargs.
Proof.
  intros Hg. unfold get_calltree_from_parity_trace.
  rewrite (max_depth_keeps_read_fields g traces Hg).
  destruct root as [r|]; simpl.
  - apply (calltree_keeps_read_fields g traces (S (max_depth traces)) Hg).
  - destruct traces as [|first rest]; [reflexivity|]. simpl.
    apply (calltree_keeps_read_fields g (first :: rest)
             (S (max_depth (first :: rest))) Hg).
Qed.
End AssemblerProperties.

(** X10: the sub-trace relation has no cycles and no sharing: a sub-trace is
    exactly one level deeper than its root, so its address is never empty, no
    record is its own sub-trace, a root is never a sub-trace of its own
    sub-trace, and a record is a sub-trace of at most one address. *)
Theorem subtraces_form_a_forest (traces : list ParityTrace.t) (a sub : ParityTrace.t) :
  (sub ∈ children_of traces a ->
     length (ParityTrace.trace_address sub) = S (length (ParityTrace.trace_address a))
     /\ ParityTrace.trace_address sub <> []
     /\ (a ∉ children_of traces sub)
     /\ forall b, sub ∈ children_of traces b ->
          ParityTrace.trace_address b = ParityTrace.trace_address a)
  /\ a ∉ children_of traces a.
Proof.
  split.
  - intros Hsub. apply children_of_spec in Hsub as [[Hlen Hdrop] Hin].
    split; [lia|]. split; [intros Hnil; rewrite Hnil in Hlen; simpl in Hlen; lia|].
    split.
    + intros Ha. apply children_of_spec in Ha as [[Hlen' _] _]. lia.
    + intros b Hb. apply children_of_spec in Hb as [[_ Hdrop'] _]. congruence.
  - intros Ha. apply children_of_spec in Ha as [[Hlen _] _]. lia.
Qed.

(** * The statements at the sample record set *)

(** Every record of the sample set assembles with the stand-in node class. *)
Lemma sample_assembles (sub : ParityTrace.t) :
  sub ∈ sample_traces ->
  exists m, get_calltree_from_parity_trace sample_validate sample_traces (Some sub) ∅ = Ok m.
Proof.
  unfold sample_traces. rewrite !elem_of_cons, elem_of_nil.
  intros [-> | [-> | [-> | [-> | [-> | []]]]]]; eexists; vm_compute; reflexivity.
Qed.

Lemma sample_subtraces_assemble (root sub : ParityTrace.t) :
  sub ∈ children_of sample_traces root ->
  exists m, get_calltree_from_parity_trace sample_validate sample_traces (Some sub) ∅ = Ok m.
Proof.
  intros Hsub. apply sample_assembles. by apply children_of_spec in Hsub as [_ ?].
Qed.

(** The reverted call of the sample set has an error: the dictionary that its
    node is built from, and the node, have the failed flag set. *)
Lemma failed_iff_error_present_witness :
  exists n handed,
    get_calltree_from_parity_trace sample_validate sample_traces (Some sample_reverted) ∅
      = Ok n
    /\ sample_validate handed = Ok n
    /\ handed !! "failed" = Some (PBool true)
    /\ n !! "failed" = Some (PBool true).
Proof.
  destruct (failed_iff_error_present sample_validate sample_traces sample_reverted ∅
              (lookup_empty _)) as [Hret Hall].
  destruct (Hret eq_refl (sample_subtraces_assemble sample_reverted))
    as (computed & Hc & Heq).
  destruct (sample_assembles sample_reverted) as [n Hn].
  { unfold sample_traces. rewrite !elem_of_cons. tauto. }
  destruct (Hall n Hn) as (handed & Hv & Hflag & _ & Hnode).
  exists n, handed. split; [exact Hn|]. split; [exact Hv|]. split; [exact Hflag|].
  exact (proj1 (Hnode (sample_validate_stores "failed"))).
Defined.

(** C1, as stated, fails: the root of the sample set has no error, and the
    node is built from a dictionary whose failed flag is false, not true,
    whatever the node class is; a node class that stores the flag returns a
    node whose flag is false. *)
Lemma failed_not_when_error_absent :
  exists handed : node,
    (forall model_validate : node -> outcome node,
       get_calltree_from_parity_trace model_validate [sample_root] (Some sample_root) ∅
         = model_validate handed)
    /\ ParityTrace.error sample_root = None
    /\ handed !! "failed" = Some (PBool false)
    /\ (exists n,
          get_calltree_from_parity_trace sample_validate [sample_root] (Some sample_root) ∅
            = Ok n
          /\ n !! "failed" = Some (PBool false))
    /\ ~ (handed !! "failed" = Some (PBool true) <-> ParityTrace.error sample_root = None).
Proof.
  eexists. split; [intros model_validate; reflexivity|].
  split; [reflexivity|]. split; [reflexivity|].
  split; [eexists; split; [vm_compute; reflexivity | reflexivity]|].
  intros [_ H]. specialize (H eq_refl). vm_compute in H. discriminate H.
Qed.

Lemma children_are_subtraces_in_set_order_witness :
  exists (n handed : node) (kids : list node),
    get_calltree_from_parity_trace sample_validate sample_traces (Some sample_root) ∅ = Ok n
    /\ sample_validate handed = Ok n
    /\ handed !! "calls" = Some (PList (PNode <$> kids))
    /\ Forall2
         (fun sub kid =>
            get_calltree_from_parity_trace sample_validate sample_traces (Some sub) ∅
              = Ok kid)
         [sample_create; sample_reverted; sample_duplicate] kids.
Proof.
  destruct (children_are_subtraces_in_set_order sample_validate sample_traces sample_root ∅
              (lookup_empty _)) as (_ & Hkids & _).
  destruct (sample_assembles sample_root) as [n Hn].
  { unfold sample_traces. rewrite !elem_of_cons. tauto. }
  destruct (Hkids n Hn) as (handed & kids & Hv & Hcalls & Hall).
  exists n, handed, kids.
  split; [exact Hn|]. split; [exact Hv|]. split; [exact Hcalls | exact Hall].
Defined.

Lemma failed_call_has_no_result_fields_witness :
  exists n handed,
    get_calltree_from_parity_trace sample_validate sample_traces (Some sample_reverted) ∅
      = Ok n
    /\ sample_validate handed = Ok n
    /\ handed !! "gas_cost" = None
    /\ handed !! "returndata" = None
    /\ handed !! "failed" = Some (PBool true)
    /\ n !! "failed" = Some (PBool true).
Proof.
  assert (Hk : call_family (ParityTrace.call_type sample_reverted)).
  { unfold call_family. simpl. apply list_elem_of_here. }
  destruct (failed_call_has_no_result_fields sample_validate sample_traces sample_reverted ∅
              "reverted" Hk eq_refl eq_refl (lookup_empty _) (lookup_empty _)
              (lookup_empty _)) as [_ Hall].
  destruct (sample_assembles sample_reverted) as [n Hn].
  { unfold sample_traces. rewrite !elem_of_cons. tauto. }
  destruct (Hall n Hn) as (handed & Hv & Hgas & Hret & Hflag & Hnode).
  exists n, handed. repeat (split; [assumption|]).
  exact (Hnode (sample_validate_stores "failed")).
Defined.

(** The override [failed = True] on the root of the sample set, whose error is
    absent: the derived flag is false, the node's flag is true, and the
    children are the derived ones. *)
Lemma overrides_applied_last_witness :
  exists n computed,
    get_calltree_from_parity_trace sample_validate sample_traces None
        {["failed" := PBool true]} = Ok n
    /\ derived_kwargs sample_validate sample_traces sample_root = Ok computed
    /\ ParityTrace.error sample_root = None
    /\ computed !! "failed" = Some (PBool false)
    /\ n !! "failed" = Some (PBool true)
    /\ n !! "calls" = computed !! "calls"
    /\ get_calltree_from_parity_trace sample_validate sample_traces None ∅
         = sample_validate computed.
Proof.
  assert (Hn : exists n,
    get_calltree_from_parity_trace sample_validate sample_traces None
      {["failed" := PBool true]} = Ok n).
  { eexists. vm_compute. reflexivity. }
  destruct Hn as [n Hn].
  destruct (overrides_applied_last sample_validate sample_traces None
              {["failed" := PBool true]} n Hn)
    as (r & computed & Hr & Hc & _ & Hplain & _ & _ & Hover & Hkeep).
  injection Hr as <-.
  pose proof (derived_failed _ _ _ _ Hc) as Hflag.
  destruct (derived_calls _ _ _ _ Hc) as (kids & Hcalls & _).
  exists n, computed.
  split; [exact Hn|]. split; [exact Hc|]. split; [reflexivity|].
  split; [exact Hflag|].
  split; [apply Hover; [apply sample_validate_stores | reflexivity]|].
  split; [|exact Hplain].
  rewrite Hcalls. apply Hkeep; [apply sample_validate_stores | reflexivity | exact Hcalls].
Defined.

Lemma duplicate_addresses_kept_witness :
  children_of sample_traces sample_root = [sample_create; sample_reverted; sample_duplicate]
  /\ children_of sample_traces sample_reverted = [sample_deep]
  /\ children_of sample_traces sample_duplicate = [sample_deep]
  /\ exists (n na nb : node) (k1 k2 k3 : list node),
       get_calltree_from_parity_trace sample_validate sample_traces (Some sample_root) ∅
         = Ok n
       /\ n !! "calls" = Some (PList (PNode <$> (k1 ++ na :: k2 ++ nb :: k3)))
       /\ length k1 = 1%nat /\ length k2 = 0%nat /\ length k3 = 0%nat
       /\ get_calltree_from_parity_trace sample_validate sample_traces
            (Some sample_reverted) ∅ = Ok na
       /\ get_calltree_from_parity_trace sample_validate sample_traces
            (Some sample_duplicate) ∅ = Ok nb
       /\ na !! "calls" = nb !! "calls".
Proof.
  destruct (duplicate_addresses_kept sample_validate sample_traces
              [sample_root; sample_create] [sample_deep] [] sample_root sample_reverted
              sample_duplicate ∅ eq_refl eq_refl (conj eq_refl eq_refl))
    as (Hch & Hsame & Hex).
  split; [exact Hch|].
  split; [reflexivity|].
  split; [rewrite <- Hsame; reflexivity|].
  destruct (Hex eq_refl (sample_subtraces_assemble sample_root))
    as (computed & k1 & k2 & k3 & na & nb & da & db & Hc & Heq & _ & Hcalls
        & H1 & H2 & H3 & Hna & Hnb & _ & _ & Hva & Hvb & Hkids).
  destruct (sample_assembles sample_root) as [n Hn].
  { unfold sample_traces. rewrite !elem_of_cons. tauto. }
  exists n, na, nb, k1, k2, k3.
  split; [exact Hn|].
  split.
  { rewrite Heq in Hn. apply sample_validate_Ok in Hn as ->.
    apply Hcalls, lookup_empty. }
  split; [exact H1|]. split; [exact H2|]. split; [exact H3|].
  split; [exact Hna|]. split; [exact Hnb|].
  apply sample_validate_Ok in Hva as ->. apply sample_validate_Ok in Hvb as ->.
  exact Hkids.
Defined.

Lemma create_node_fields_witness :
  exists n handed,
    get_calltree_from_parity_trace sample_validate sample_traces (Some sample_create) ∅
      = Ok n
    /\ sample_validate handed = Ok n
    /\ handed !! "value" = Some (PInt 0)
    /\ handed !! "gas_limit" = Some (PInt 512)
    /\ handed !! "calldata" = Some (PStr "0x6080")
    /\ handed !! "returndata" = None
    /\ handed !! "gas_cost" = Some (PInt 3)
    /\ handed !! "address" = Some (PStr "0x000000000000000000000000000000000000000d").
Proof.
  destruct (create_node_fields sample_validate sample_traces sample_create ∅
              (CreateAction.mk 512 "0x6080" 0) eq_refl eq_refl
              (fun k _ => lookup_empty k)) as [_ Hall].
  destruct (sample_assembles sample_create) as [n Hn].
  { unfold sample_traces. rewrite !elem_of_cons. tauto. }
  destruct (Hall n Hn) as (handed & Hv & Hvalue & Hgas & Hdata & Hret & Hcost & Haddr).
  exists n, handed. repeat (split; [assumption|]). exact Haddr.
Defined.

Lemma call_node_fields_witness :
  exists n handed,
    get_calltree_from_parity_trace sample_validate sample_traces (Some sample_duplicate) ∅
      = Ok n
    /\ sample_validate handed = Ok n
    /\ handed !! "address" = Some (PStr "0x000000000000000000000000000000000000000e")
    /\ handed !! "value" = Some (PInt 5)
    /\ handed !! "gas_limit" = Some (PInt 128)
    /\ handed !! "calldata" = Some (PStr "0x01")
    /\ handed !! "gas_cost" = Some (PInt 2)
    /\ handed !! "returndata" = Some (PStr "0x02").
Proof.
  assert (Hk : call_family (ParityTrace.call_type sample_duplicate)).
  { unfold call_family. simpl. rewrite !elem_of_cons. tauto. }
  destruct (call_node_fields sample_validate sample_traces sample_duplicate ∅
              (CallAction.mk 128 (Some "0x01")
                 (Some "0x000000000000000000000000000000000000000e")
                 "0x000000000000000000000000000000000000000b" 5 "staticcall")
              (CallResult.mk 2 "0x02") Hk eq_refl eq_refl
              (fun k _ => lookup_empty k)) as [_ Hall].
  destruct (sample_assembles sample_duplicate) as [n Hn].
  { unfold sample_traces. rewrite !elem_of_cons. tauto. }
  destruct (Hall n Hn) as (handed & Hv & Haddr & Hvalue & Hgas & Hdata & Hcost & Hret).
  exists n, handed. repeat (split; [assumption|]). exact Hret.
Defined.

Lemma selfdestruct_node_fields_witness :
  exists n handed,
    get_calltree_from_parity_trace sample_validate sample_traces (Some sample_deep) ∅ = Ok n
    /\ sample_validate handed = Ok n
    /\ handed !! "address" = Some (PStr "0x000000000000000000000000000000000000000c")
    /\ handed !! "value" = None
    /\ handed !! "gas_limit" = None
    /\ handed !! "calldata" = None
    /\ handed !! "gas_cost" = None
    /\ handed !! "returndata" = None.
Proof.
  destruct (selfdestruct_node_fields sample_validate sample_traces sample_deep ∅
              (SelfDestructAction.mk "0x000000000000000000000000000000000000000c" 7)
              eq_refl eq_refl (fun k _ => lookup_empty k)) as [_ Hall].
  destruct (sample_assembles sample_deep) as [n Hn].
  { unfold sample_traces. rewrite !elem_of_cons. tauto. }
  destruct (Hall n Hn) as (handed & Hv & Haddr & Hnone).
  exists n, handed. split; [exact Hn|]. split; [exact Hv|]. split; [exact Haddr|].
  repeat split; apply Hnone;
    first [discriminate | unfold projected_fields; rewrite !elem_of_cons; tauto].
Defined.

Lemma node_field_set_witness :
  exists n handed,
    get_calltree_from_parity_trace sample_validate sample_traces (Some sample_reverted) ∅
      = Ok n
    /\ sample_validate handed = Ok n
    /\ dom handed = base_fields ∪ {["address"; "value"; "gas_limit"; "calldata"]}.
Proof.
  destruct (sample_assembles sample_reverted) as [n Hn].
  { unfold sample_traces. rewrite !elem_of_cons. tauto. }
  destruct (node_field_set sample_validate sample_traces sample_reverted ∅ n Hn)
    as (handed & Hv & Hdom & _).
  exists n, handed. split; [exact Hn|]. split; [exact Hv|].
  rewrite Hdom, dom_empty_L. unfold fields_of. simpl. set_solver.
Defined.

Lemma payload_mismatch_raises_witness :
  get_calltree_from_parity_trace sample_validate sample_traces (Some sample_mismatch) ∅
    = Raise AttributeError.
Proof.
  apply (payload_mismatch_raises sample_validate sample_traces sample_mismatch ∅).
  reflexivity.
Defined.

(** A record set in which nothing extends the address of the root: the other
    record does not fit its kind and is not looked at. *)
Lemma root_without_subtraces_is_leaf_witness :
  exists computed,
    derived_kwargs sample_validate [sample_mismatch] sample_reverted = Ok computed
    /\ computed !! "calls" = Some (PList [])
    /\ get_calltree_from_parity_trace sample_validate [sample_mismatch]
         (Some sample_reverted) ∅ = sample_validate computed
    /\ exists n, sample_validate computed = Ok n /\ n !! "calls" = Some (PList []).
Proof.
  destruct (root_without_subtraces_is_leaf sample_validate [sample_mismatch]
              sample_reverted ∅) as (computed & Hc & Hcalls & _ & Heq).
  - intros r Hr i. apply list_elem_of_singleton in Hr as ->. simpl. intros [=].
  - reflexivity.
  - exists computed. split; [exact Hc|]. split; [exact Hcalls|].
    rewrite (left_id_L ∅ (∪)) in Heq. split; [exact Heq|].
    assert (Hn : exists n,
      get_calltree_from_parity_trace sample_validate [sample_mismatch]
        (Some sample_reverted) ∅ = Ok n).
    { eexists. vm_compute. reflexivity. }
    destruct Hn as [n Hn]. rewrite Heq in Hn. exists n. split; [exact Hn|].
    apply sample_validate_Ok in Hn as ->. exact Hcalls.
Defined.

Lemma assembly_ignores_unread_fields_witness :
  get_calltree_from_parity_trace sample_validate
      (with_metadata "0x00" "0x01" 99 <$> sample_traces)
      (with_metadata "0x00" "0x01" 99 <$> None) ∅
    = get_calltree_from_parity_trace sample_validate sample_traces None ∅.
Proof.
  apply (assembly_ignores_unread_fields sample_validate (with_metadata "0x00" "0x01" 99)
           sample_traces None ∅).
  intros r. repeat split; reflexivity.
Defined.
